(** * coach: the deployment orchestrator of baely/infra (tools/cmd/coach/main.go)

    A shallow embedding of the gRPC service [coachService] with its two
    operations [Assemble] and [Start], the request validators, the tag
    resolution, the workspace handling and the authentication interceptor.

    The handlers are effectful: they create and remove directories, write
    files, start external processes (git, docker) and talk to GitHub.  The
    embedding threads a [World] (a filesystem and a trace of the effects that
    happened) through a state-and-error monad.  What the outside world answers
    (the exit status of a process, a directory listing of the control
    repository, the body of an HTTP response, the random part of a temporary
    name) is read from an [Env] record, so every statement below holds for all
    behaviours of the collaborators.  Log output is not modelled.  Line
    numbers are those of the later of the two revisions in main.go, the one
    that copies the files mounted for a service (lines 297-719).

    The command-line client (tools/cmd/coachclient/main.go, lines 114-200)
    is embedded as far as it checks its flags and builds its calls. *)

From Stdlib Require Import ZArith Ascii DecimalString.
From stdpp Require Import gmap strings list fin_maps sorting.

(** ** Go strings *)

Module gostrings.

(** [strip p s] is [Some rest] when [s = p ++ rest]. *)
Fixpoint strip (p s : string) : option string :=
  match p, s with
  | EmptyString, _ => Some s
  | String a p', String b s' => if Ascii.eqb a b then strip p' s' else None
  | String _ _, EmptyString => None
  end.

Definition HasPrefix (s p : string) : bool :=
  match strip p s with Some _ => true | None => false end.

(** strings.TrimPrefix: [s] without the leading [p]; [s] itself when it
    does not start with [p]. *)
Definition TrimPrefix (s p : string) : string :=
  match strip p s with Some rest => rest | None => s end.

Fixpoint ContainsByte (s : string) (c : ascii) : bool :=
  match s with
  | EmptyString => false
  | String a s' => Ascii.eqb a c || ContainsByte s' c
  end.

(** The pieces of [s] around the last occurrence of [c]
    (strings.LastIndexByte followed by the two slices). *)
Fixpoint cutLast (s : string) (c : ascii) : option (string * string) :=
  match s with
  | EmptyString => None
  | String a s' =>
      match cutLast s' c with
      | Some (pre, suf) => Some (String a pre, suf)
      | None => if Ascii.eqb a c then Some (EmptyString, s') else None
      end
  end.

(** strings.Split(s, "/") *)
Fixpoint Split (s : string) : list string :=
  match s with
  | EmptyString => [EmptyString]
  | String a s' =>
      if Ascii.eqb a "/"%char then EmptyString :: Split s'
      else match Split s' with
           | seg :: rest => String a seg :: rest
           | [] => [String a EmptyString]
           end
  end.

(** strings.HasSuffix *)
Fixpoint HasSuffix (s suffix : string) : bool :=
  if String.eqb s suffix then true
  else match s with
       | EmptyString => false
       | String _ s' => HasSuffix s' suffix
       end.

(** strings.Join(elems, "/") *)
Fixpoint Join (elems : list string) : string :=
  match elems with
  | [] => EmptyString
  | [x] => x
  | x :: rest => x +:+ "/" +:+ Join rest
  end.

End gostrings.

(** ** Paths

    A file name on the orchestrator's host is kept as the list of its
    components below the root, which is what the kernel resolves it to. *)

Abbreviation path := (list string).

Module filepath.

(** One component of a name applied to a resolved directory: empty
    components and [.] stay, [..] goes up (the root is its own parent). *)
Definition step (acc : path) (seg : string) : path :=
  if decide (seg = "" ∨ seg = ".") then acc
  else if decide (seg = "..") then removelast acc
  else acc ++ [seg].

(** filepath.Join(dir, name) for an absolute [dir]: the cleaned
    concatenation. *)
Definition Join (dir : path) (name : string) : path :=
  foldl step dir (gostrings.Split name).

(** The components of an absolute name such as [/app/services/web]. *)
Definition resolve (name : string) : path := Join [] name.

(** The name of a path as the program passes it to a process. *)
Definition render (p : path) : string := "/" +:+ gostrings.Join p.

(** filepath.Rel(base, p) for [p] below [base]. *)
Definition Rel (base p : path) : path := drop (length base) p.

End filepath.

Module gopath.

(** One component in path.Clean of a relative name: [..] is kept when
    there is nothing left to go up from. *)
Definition step (acc : list string) (seg : string) : list string :=
  if decide (seg = "" ∨ seg = ".") then acc
  else if decide (seg = "..") then
    match last acc with
    | Some x => if decide (x = "..") then acc ++ [".."] else removelast acc
    | None => [".."]
    end
  else acc ++ [seg].

(** path.Join(a, b) for a relative first element: empty elements are
    dropped, the rest is joined with a slash and cleaned. *)
Definition Join (a b : string) : string :=
  match foldl step [] (gostrings.Split a ++ gostrings.Split b) with
  | [] => "."
  | segs => gostrings.Join segs
  end.

End gopath.

(** ** The filesystem *)

Inductive node :=
| File (data : string)
| Dir.

#[global] Instance node_eq_dec : EqDecision node.
Proof. solve_decision. Defined.

Abbreviation FS := (gmap (list string) node).

Module os.

(** What is at the resolved name [p], if anything.  The root is a
    directory.  This is the FileInfo of os.Stat without its error; where the
    program looks at the error, it is [Lstat] below. *)
Definition Stat (fs : FS) (p : path) : option node :=
  if decide (p = []) then Some Dir else fs !! p.

(** Why a name could not be looked up. *)
Inductive Errno :=
| ENOENT
| ENOTDIR.

(** The kernel's walk along the components of a name, from the directory
    [cur]: every component is looked up in a directory, so what was reached
    so far must be one, also when the next component is [..] and leaves it
    again.  There are no symbolic links. *)
Fixpoint namei (f : FS) (cur : path) (segs : list string) : Errno + path :=
  match segs with
  | [] => inr cur
  | seg :: rest =>
      match Stat f cur with
      | Some Dir => namei f (filepath.step cur seg) rest
      | Some (File _) => inl ENOTDIR
      | None => inl ENOENT
      end
  end.

(** os.Lstat, and os.Stat with its error, of an absolute name given by its
    components (the first one is empty for a name written with its leading
    slash): the resolved name and what is there, or the error. *)
Definition Lstat (f : FS) (segs : list string) : Errno + (path * node) :=
  match namei f [] segs with
  | inl e => inl e
  | inr p =>
      match Stat f p with
      | Some info => inr (p, info)
      | None => inl ENOENT
      end
  end.

(** os.IsNotExist(err) for the error of a lookup. *)
Definition IsNotExist {A} (r : Errno + A) : bool :=
  match r with
  | inl ENOENT => true
  | _ => false
  end.

(** All the non-empty prefixes of [p], shortest first, each below [base]. *)
Fixpoint prefixes (base p : path) : list path :=
  match p with
  | [] => []
  | x :: p' => (base ++ [x]) :: prefixes (base ++ [x]) p'
  end.

Definition notFile (fs : FS) (p : path) : bool :=
  match Stat fs p with Some (File _) => false | _ => true end.

(** os.MkdirAll: creates [p] and the missing parents; fails when [p] or a
    parent exists and is not a directory. *)
Definition MkdirAll (p : path) (fs : FS) : option FS :=
  if forallb (notFile fs) (prefixes [] p)
  then Some (foldr (λ q m, <[q := Dir]> m) fs (prefixes [] p))
  else None.

(** os.Mkdir: the parent must be a directory and [p] must not exist. *)
Definition Mkdir (p : path) (fs : FS) : option FS :=
  match Stat fs p, Stat fs (removelast p) with
  | None, Some Dir => Some (<[p := Dir]> fs)
  | _, _ => None
  end.

(** os.WriteFile: creates or truncates the file [p]; the parent must be a
    directory and [p] must not be one. *)
Definition WriteFile (p : path) (data : string) (fs : FS) : option FS :=
  match Stat fs p, Stat fs (removelast p) with
  | Some Dir, _ => None
  | _, Some Dir => Some (<[p := File data]> fs)
  | _, _ => None
  end.

Definition ReadFile (p : path) (fs : FS) : option string :=
  match Stat fs p with Some (File data) => Some data | _ => None end.

(** os.RemoveAll: [p] and everything below it; no error when [p] does not
    exist. *)
Definition RemoveAll (p : path) (fs : FS) : FS :=
  filter (λ kv, ¬ p `prefix_of` kv.1) fs.

(** The directories in which temporary files are created. *)
Definition TempDir : path := ["tmp"].

End os.

(** ** Errors: plain Go errors and gRPC status errors *)

Module codes.
(** google.golang.org/grpc/codes *)
Inductive Code :=
| OK | Canceled | Unknown | InvalidArgument | DeadlineExceeded | NotFound
| AlreadyExists | PermissionDenied | ResourceExhausted | FailedPrecondition
| Aborted | OutOfRange | Unimplemented | Internal | Unavailable | DataLoss
| Unauthenticated.

#[global] Instance Code_eq_dec : EqDecision Code.
Proof. solve_decision. Defined.

Definition String (c : Code) : string :=
  match c with
  | OK => "OK" | Canceled => "Canceled" | Unknown => "Unknown"
  | InvalidArgument => "InvalidArgument"
  | DeadlineExceeded => "DeadlineExceeded" | NotFound => "NotFound"
  | AlreadyExists => "AlreadyExists"
  | PermissionDenied => "PermissionDenied"
  | ResourceExhausted => "ResourceExhausted"
  | FailedPrecondition => "FailedPrecondition" | Aborted => "Aborted"
  | OutOfRange => "OutOfRange" | Unimplemented => "Unimplemented"
  | Internal => "Internal" | Unavailable => "Unavailable"
  | DataLoss => "DataLoss" | Unauthenticated => "Unauthenticated"
  end.
End codes.

Module context.
(** The two errors of a context that is done: context.Canceled and
    context.DeadlineExceeded. *)
Inductive Err :=
| Canceled
| DeadlineExceeded.

#[global] Instance Err_eq_dec : EqDecision Err.
Proof. solve_decision. Defined.
End context.

(** A non-nil Go [error]: made by fmt.Errorf without a cause (or handed back
    by os, os/exec, net/http and the GitHub client), made by status.Error,
    made by fmt.Errorf around a cause with the verb %w, or an error that is
    (for errors.Is) the error of a done context. *)
Inductive error :=
| errorString (msg : string)
| statusError (c : codes.Code) (msg : string)
| wrapError (msg : string) (cause : error)
| contextError (c : context.Err) (msg : string).

#[global] Instance error_eq_dec : EqDecision error.
Proof. solve_decision. Defined.

(** err.Error() *)
Fixpoint Error (e : error) : string :=
  match e with
  | errorString msg => msg
  | statusError c msg =>
      "rpc error: code = " +:+ codes.String c +:+ " desc = " +:+ msg
  | wrapError msg cause => msg +:+ Error cause
  | contextError _ msg => msg
  end.

Module status.
(** The code of the status the server makes of the error of a handler, and
    the caller of the RPC receives (status.FromError, and for what is no
    status status.FromContextError): the code of a status error, also
    through %w; Canceled or DeadlineExceeded for an error that is, or wraps,
    the error of a done context; Unknown for every other error. *)
Fixpoint Code (e : error) : codes.Code :=
  match e with
  | errorString _ => codes.Unknown
  | statusError c _ => c
  | wrapError _ cause => Code cause
  | contextError context.Canceled _ => codes.Canceled
  | contextError context.DeadlineExceeded _ => codes.DeadlineExceeded
  end.
End status.

(** A Go result pair [(value, error)]. *)
Inductive Result (A : Type) :=
| Ok (a : A)
| Err (e : error).
Arguments Ok {A} a.
Arguments Err {A} e.

(** ** The world a handler runs in *)

(** exec.Cmd: the program, its arguments and the working directory
    ([None]: the directory of the server process). *)
Record Cmd := {
  Path : string;
  Args : list string;
  CmdDir : option path
}.

#[global] Instance Cmd_eq_dec : EqDecision Cmd.
Proof. solve_decision. Defined.

(** What a handler did, in order.  A started process is recorded with the
    filesystem it found. *)
Inductive Event :=
| EvMkdirTemp (dir : path)
| EvExec (c : Cmd) (seen : FS)
| EvGetContents (servicePath ref : string)
| EvHttpGet (url : string).

Record World := {
  fs : FS;
  trace : list Event
}.

Definition emit (ev : Event) (w : World) : World :=
  {| fs := fs w; trace := trace w ++ [ev] |}.

Definition setFs (f : FS) (w : World) : World :=
  {| fs := f; trace := trace w |}.

(** github.RepositoryContent: the fields are pointers, the getters give the
    empty string for nil. *)
Record RepositoryContent := {
  Name : option string;
  DownloadURL : option string
}.

Definition GetName (c : RepositoryContent) : string := default "" (Name c).
Definition GetDownloadURL (c : RepositoryContent) : string :=
  default "" (DownloadURL c).

(** What a collaborator outside the server answers: a value; a failure with
    its message (an error of the GitHub client, of net/http or of a process
    is never a gRPC status); or a failure that is, or wraps, the error of a
    done context.  The context of a call is not threaded through the
    handlers: the GitHub client is the only one that is given it, and hands
    back ctx.Err() when the context is done while it waits (a connection
    that times out is reported as context.DeadlineExceeded as well). *)
Inductive Outcome (A : Type) :=
| Done (a : A)
| Failed (msg : string)
| Interrupted (c : context.Err) (msg : string).
Arguments Done {A} a.
Arguments Failed {A} msg.
Arguments Interrupted {A} c msg.

(** The answer to http.Get: a transport error, or a response with its status
    code and a body that reads to the end or fails. *)
Inductive HttpResult :=
| HttpFailed (msg : string)
| HttpResponse (StatusCode : Z) (body : Outcome string).

(** The collaborators. *)
Record Env := {
  (** the random part of a temporary name, for a pattern *)
  nextRandom : string → FS → string;
  (** cmd.Run: what the process leaves on the filesystem, and its error *)
  Run : Cmd → FS → FS * option string;
  (** client.Repositories.GetContents(owner, repo, path, ref): the listing
      of a directory (empty for a file), or the error *)
  GetContents : string → string → string → string → Outcome (list RepositoryContent);
  (** http.Get(url) *)
  Get : string → HttpResult
}.

(** State and error: a computation runs in a world and gives a result and
    the world after it. *)
Definition M (A : Type) : Type := World → Result A * World.

#[global] Instance M_ret : MRet M := λ A a w, (Ok a, w).
#[global] Instance M_bind : MBind M := λ A B k m w,
  match m w with
  | (Ok a, w') => k a w'
  | (Err e, w') => (Err e, w')
  end.

Definition fail {A} (e : error) : M A := λ w, (Err e, w).

(** [if err != nil { return nil, err }] for a function that returns only an
    error. *)
Definition check (err : option error) : M unit :=
  match err with
  | None => mret tt
  | Some e => fail e
  end.

Definition ofResult {A} (r : Result A) : M A := λ w, (r, w).

(** [fmt.Errorf(msg + "%w", err)] around the error of [m]. *)
Definition wrapf {A} (msg : string) (m : M A) : M A := λ w,
  match m w with
  | (Ok a, w') => (Ok a, w')
  | (Err e, w') => (Err (wrapError msg e), w')
  end.

(** [defer cleanup()]: [cleanup] runs when [body] returns, whatever it
    returns. *)
Definition defer {A} (cleanup : World → World) (body : M A) : M A := λ w,
  let '(r, w') := body w in (r, cleanup w').

(** The error of a computation as a value: [err := f()] without a return. *)
Definition try {A} (m : M A) : M (option error) := λ w,
  match m w with
  | (Ok _, w') => (Ok None, w')
  | (Err e, w') => (Ok (Some e), w')
  end.

(** ** The request and response messages (squad/v1alpha1) *)

(** Modelled from the spec: the generated Go package squadv1alpha1 is not
    part of the sources.  The tag strategy is the enum of the three declared
    values Unspecified, Latest and Sha; as a protobuf enum it is open, and
    [AssembleRequest_TAG_other n] stands for a number [n] on the wire that
    is none of the three. *)
Inductive AssembleRequest_Tag :=
| AssembleRequest_TAG_UNSPECIFIED
| AssembleRequest_TAG_LATEST
| AssembleRequest_TAG_SHA
| AssembleRequest_TAG_other (n : Z).

(** Modelled from the spec: the generated message AssembleRequest is not
    part of the sources; its fields are the ones the service and the client
    read and set (the two locations are optional). *)
Module AssembleRequest.
Record t := {
  Repo : string;
  Ref : string;
  DockerfileLocation : option string;
  ContextLocation : option string;
  Image : string;
  Tag : AssembleRequest_Tag
}.
End AssembleRequest.

(** Modelled from the spec: the generated message StartRequest is not part
    of the sources; it has the service name and the ref. *)
Module StartRequest.
Record t := {
  Service : string;
  Ref : string
}.
End StartRequest.

Inductive AssembleResponse := mkAssembleResponse.
Inductive StartResponse := mkStartResponse.

(** ** Pure helpers of the service *)

Definition validateAssembleRequest (req : AssembleRequest.t) : option error :=
  if decide (AssembleRequest.Repo req = "") then
    Some (errorString "repo name is required")
  else if decide (AssembleRequest.Ref req = "") then
    Some (errorString "ref is required")
  else if decide (AssembleRequest.Image req = "") then
    Some (errorString "image name is required")
  else None.

Definition validateStartRequest (req : StartRequest.t) : option error :=
  if decide (StartRequest.Service req = "") then
    Some (errorString "service name is required")
  else if decide (StartRequest.Ref req = "") then
    Some (errorString "ref is required")
  else if decide (StartRequest.Service req = "github.com_baely_infra") then
    Some (errorString "coach cannot deploy coach")
  else None.

Definition getDockerTag (req : AssembleRequest.t) : Result string :=
  match AssembleRequest.Tag req with
  | AssembleRequest_TAG_LATEST => Ok "latest"
  | AssembleRequest_TAG_SHA => Ok (AssembleRequest.Ref req)
  | _ => Err (errorString "invalid docker tag")
  end.

Definition getStringOrDefault (ptr : option string) (defaultValue : string) : string :=
  match ptr with
  | Some s => s
  | None => defaultValue
  end.

(** The order in which filepath.Walk visits: names are compared byte by
    byte, a directory comes before what it contains. *)
Fixpoint path_leb (p q : path) : bool :=
  match p, q with
  | [], _ => true
  | _ :: _, [] => false
  | x :: p', y :: q' =>
      match String.compare x y with
      | Lt => true
      | Gt => false
      | Eq => path_leb p' q'
      end
  end.

Definition entry_le (a b : path * node) : Prop := path_leb a.1 b.1.

#[global] Instance entry_le_dec a b : Decision (entry_le a b).
Proof. unfold entry_le. apply _. Defined.

(** What filepath.Walk(root) visits, in order: the root, and below a
    directory everything under it. *)
Definition Walk (f : FS) (root : path) : list (path * node) :=
  match os.Stat f root with
  | None => []
  | Some (File data) => [(root, File data)]
  | Some Dir =>
      (root, Dir) ::
      merge_sort entry_le
        (filter (λ kv, root `prefix_of` kv.1 ∧ kv.1 ≠ root) (map_to_list f))
  end.

(** ** The service *)

Section coach.
Context (env : Env).

(** *** Effects *)

(** os.MkdirTemp("", pattern): a new directory in the default directory for
    temporary files.  The pattern must not contain a separator; the random
    part replaces the last star, or is appended.  The retries of the library
    after a name collision are part of [nextRandom]. *)
Definition MkdirTemp (pattern : string) : M path := λ w,
  if gostrings.ContainsByte pattern "/" then
    (Err (errorString ("mkdirtemp " +:+ pattern +:+ ": pattern contains path separator")), w)
  else
    let '(prefix, suffix) :=
      match gostrings.cutLast pattern "*" with
      | Some ps => ps
      | None => (pattern, "")
      end in
    let name := os.TempDir ++ [prefix +:+ nextRandom env pattern (fs w) +:+ suffix] in
    match os.Mkdir name (fs w) with
    | Some f => (Ok name, emit (EvMkdirTemp name) (setFs f w))
    | None => (Err (errorString ("mkdir " +:+ filepath.render name +:+ ": cannot create")), w)
    end.

Definition MkdirAll (p : path) : M unit := λ w,
  match os.MkdirAll p (fs w) with
  | Some f => (Ok tt, setFs f w)
  | None => (Err (errorString ("mkdir " +:+ filepath.render p +:+ ": not a directory")), w)
  end.

Definition WriteFile (p : path) (data : string) : M unit := λ w,
  match os.WriteFile p data (fs w) with
  | Some f => (Ok tt, setFs f w)
  | None => (Err (errorString ("open " +:+ filepath.render p +:+ ": cannot write")), w)
  end.

Definition ReadFile (p : path) : M string := λ w,
  match os.ReadFile p (fs w) with
  | Some data => (Ok data, w)
  | None => (Err (errorString ("read " +:+ filepath.render p +:+ ": cannot read")), w)
  end.

Definition RemoveAll (p : path) (w : World) : World :=
  setFs (os.RemoveAll p (fs w)) w.

(** cmd.Run() *)
Definition runCmd (c : Cmd) : M unit := λ w,
  let '(f, err) := Run env c (fs w) in
  let w' := emit (EvExec c (fs w)) (setFs f w) in
  match err with
  | None => (Ok tt, w')
  | Some msg => (Err (errorString msg), w')
  end.

Definition getContents (owner repo servicePath ref : string)
  : M (list RepositoryContent) := λ w,
  let w := emit (EvGetContents servicePath ref) w in
  match GetContents env owner repo servicePath ref with
  | Done dirContent => (Ok dirContent, w)
  | Failed msg => (Err (errorString msg), w)
  | Interrupted c msg => (Err (contextError c msg), w)
  end.

(** *** External tools *)

Definition cloneRepo (repoURL : string) (destDir : path) : M unit :=
  runCmd {| Path := "git";
            Args := ["clone"; repoURL; filepath.render destDir];
            CmdDir := None |}.

Definition checkoutRef (repoDir : path) (ref : string) : M unit :=
  runCmd {| Path := "git"; Args := ["checkout"; ref]; CmdDir := Some repoDir |}.

Definition buildDockerImage (repoDir : path) (imageName dockerfile context : string)
  : M unit :=
  runCmd {| Path := "docker";
            Args := ["build"; "--tag"; imageName; "--push";
                     "--platform"; "linux/amd64"; "--file"; dockerfile; context];
            CmdDir := Some repoDir |}.

Definition runDockerCompose (workDir : path) (args : list string) : M unit :=
  runCmd {| Path := "docker";
            Args := ["compose"; "-f"; "deploy.yaml"] ++ args;
            CmdDir := Some workDir |}.

(** *** Assemble *)

Definition Assemble (req : AssembleRequest.t) : M AssembleResponse :=
  check (validateAssembleRequest req) ;;
  let repo := "https://github.com/baely/" +:+ AssembleRequest.Repo req in
  tempDir ← wrapf "failed to create temp directory: "
    (MkdirTemp ("coach-assemble-" +:+ AssembleRequest.Repo req +:+ "-"));
  defer (RemoveAll tempDir) (
    let repoDir := filepath.Join tempDir (AssembleRequest.Repo req) in
    wrapf "failed to clone repository: " (cloneRepo repo repoDir) ;;
    wrapf ("failed to checkout ref " +:+ AssembleRequest.Ref req +:+ ": ")
      (checkoutRef repoDir (AssembleRequest.Ref req)) ;;
    dockerTag ← ofResult (getDockerTag req);
    let dockerImage :=
      "registry.baileys.dev/" +:+ AssembleRequest.Image req +:+ ":" +:+ dockerTag in
    let dockerfile :=
      getStringOrDefault (AssembleRequest.DockerfileLocation req) "Dockerfile" in
    let dockerContext :=
      getStringOrDefault (AssembleRequest.ContextLocation req) "." in
    wrapf "failed to build docker image: "
      (buildDockerImage repoDir dockerImage dockerfile dockerContext) ;;
    mret mkAssembleResponse).

(** *** Start *)

Definition validateDeployFile (workDir : path) : M unit := λ w,
  let deployYamlPath := filepath.Join workDir "deploy.yaml" in
  if os.IsNotExist (os.Lstat (fs w) deployYamlPath) then
    (Err (errorString "deploy.yaml not found in service directory"), w)
  else (Ok tt, w).

Definition downloadFileToPath (url : string) (filename : path) : M unit := λ w,
  let w := emit (EvHttpGet url) w in
  match Get env url with
  | HttpFailed msg => (Err (wrapError "failed to download: " (errorString msg)), w)
  | HttpResponse StatusCode body =>
      if decide (StatusCode ≠ 200%Z) then
        (Err (errorString ("HTTP " +:+ NilZero.string_of_int (Z.to_int StatusCode))), w)
      else
        match body with
        | Failed msg => (Err (wrapError "failed to read response: " (errorString msg)), w)
        | Interrupted c msg =>
            (Err (wrapError "failed to read response: " (contextError c msg)), w)
        | Done b => WriteFile filename b w
        end
  end.

(** The loop over the listing (lines 498-513): an entry without a download
    URL is skipped, a failed download is skipped as well, the others are
    counted. *)
Fixpoint downloadAll (serviceDir : path) (dirContent : list RepositoryContent)
    (downloadedCount : nat) : M nat :=
  match dirContent with
  | [] => mret downloadedCount
  | content :: rest =>
      let rawURL := GetDownloadURL content in
      if decide (rawURL = "") then downloadAll serviceDir rest downloadedCount
      else
        let filename := filepath.Join serviceDir (GetName content) in
        err ← try (downloadFileToPath rawURL filename);
        match err with
        | Some _ => downloadAll serviceDir rest downloadedCount
        | None => downloadAll serviceDir rest (S downloadedCount)
        end
  end.

(** The function handed to filepath.Walk (lines 652-689).  [p] is below
    [sourcePath], so joining [destPath] with the relative name appends its
    components. *)
Definition copyEntry (sourcePath destPath : path) (entry : path * node) : M unit :=
  let '(p, info) := entry in
  let relPath := filepath.Rel sourcePath p in
  let destFile := destPath ++ relPath in
  match info with
  | Dir => MkdirAll destFile
  | File _ =>
      data ← ReadFile p;
      WriteFile destFile data
  end.

(** The walk stops at the first error. *)
Fixpoint forEach {A} (f : A → M unit) (l : list A) : M unit :=
  match l with
  | [] => mret tt
  | x :: l' => f x ;; forEach f l'
  end.

(** The entries a walk handled: it stops at the first whose step fails. *)
Fixpoint reached {A} (f : A → M unit) (l : list A) (w : World) : list A :=
  match l with
  | [] => []
  | x :: l' =>
      match f x w with
      | (Ok _, w') => x :: reached f l' w'
      | (Err _, _) => []
      end
  end.

(** [sourcePath] is looked up as it is written (lines 643 and 652): when the
    lookup fails because something is missing, nothing is copied; when it
    fails otherwise, filepath.Walk hands the error to the function, which
    returns it.  The names of the walk are cleaned, so they are relative to
    the resolved name of the root.  The program passes an absolute name; a
    relative one would be looked up from the working directory of the
    server, which is not modelled. *)
Definition copyMountedServiceFiles (sourcePath : string) (destPath : path) : M unit := λ w,
  let found := os.Lstat (fs w) (gostrings.Split sourcePath) in
  if os.IsNotExist found then (Ok tt, w)
  else
    match found with
    | inl _ => (Err (errorString ("lstat " +:+ sourcePath +:+ ": not a directory")), w)
    | inr (source, _) => forEach (copyEntry source destPath) (Walk (fs w) source) w
    end.

(** downloadServiceConfig up to and including the download loop
    (lines 464-514): the workspace and the number of downloaded files. *)
Definition fetchServiceFiles (serviceName ref : string) : M (path * nat) :=
  let servicePath := gopath.Join "docker" serviceName in
  dirContent ← wrapf "failed to get service directory contents: "
    (getContents "baely" "infra" servicePath ref);
  if decide (length dirContent = 0) then
    fail (errorString ("no files found in service directory " +:+ servicePath))
  else
    tempDir ← wrapf "failed to create temp directory: "
      (MkdirTemp ("coach-service-" +:+ serviceName +:+ "-"));
    let serviceDir := filepath.Join tempDir serviceName in
    wrapf "failed to create service subdirectory: " (MkdirAll serviceDir) ;;
    downloadedCount ← downloadAll serviceDir dirContent 0;
    mret (serviceDir, downloadedCount).

(** downloadServiceConfig: the rest (lines 516-526) copies the files mounted
    for the service over the downloaded ones; an error of the copy is only
    logged. *)
Definition downloadServiceConfig (serviceName ref : string) : M path :=
  '(serviceDir, _) ← fetchServiceFiles serviceName ref;
  let mountedServicePath := "/app/services/" +:+ serviceName in
  try (copyMountedServiceFiles mountedServicePath serviceDir) ;;
  mret serviceDir.

(** The steps of Start that run under the deferred cleanup
    (lines 421-442). *)
Definition deploy (workDir : path) : M StartResponse :=
  validateDeployFile workDir ;;
  wrapf "failed to pull images: " (runDockerCompose workDir ["pull"]) ;;
  wrapf "failed to start service: " (runDockerCompose workDir ["up"; "-d"]) ;;
  mret mkStartResponse.

Definition Start (req : StartRequest.t) : M StartResponse :=
  check (validateStartRequest req) ;;
  workDir ← wrapf "failed to download service config: "
    (downloadServiceConfig (StartRequest.Service req) (StartRequest.Ref req));
  defer (RemoveAll workDir) (deploy workDir).

(** *** The authentication interceptor *)

(** The incoming context: its metadata, when there is any.  Keys are stored
    in lower case. *)
Record Context := {
  incoming : option (gmap string (list string))
}.

(** md.Get(k) for a lower-case key. *)
Definition md_Get (md : gmap string (list string)) (k : string) : list string :=
  default [] (md !! k).

Definition authInterceptor {A} (expectedToken : string) (ctx : Context)
    (handler : M A) : M A :=
  match incoming ctx with
  | None => fail (statusError codes.Unauthenticated "metadata not found")
  | Some md =>
      match md_Get md "authorization" with
      | [] => fail (statusError codes.Unauthenticated "authorization header required")
      | first :: _ =>
          let token := gostrings.TrimPrefix first "Bearer " in
          if decide (token ≠ expectedToken) then
            fail (statusError codes.Unauthenticated "invalid token")
          else handler
      end
  end.

End coach.

(** ** The server: every call goes through the interceptor

    main() registers the service behind [authInterceptor authToken]; a call
    is one of the two operations. *)

Inductive Request :=
| AssembleCall (req : AssembleRequest.t)
| StartCall (req : StartRequest.t).

Inductive Response :=
| AssembleReply (resp : AssembleResponse)
| StartReply (resp : StartResponse).

Definition handle (env : Env) (call : Request) : M Response :=
  match call with
  | AssembleCall req => resp ← Assemble env req; mret (AssembleReply resp)
  | StartCall req => resp ← Start env req; mret (StartReply resp)
  end.

Definition serve (env : Env) (authToken : string) (ctx : Context) (call : Request)
  : M Response :=
  authInterceptor authToken ctx (handle env call).

(** A required field of the request is empty. *)
Definition missingField (call : Request) : Prop :=
  match call with
  | AssembleCall req =>
      AssembleRequest.Repo req = "" ∨ AssembleRequest.Ref req = "" ∨
      AssembleRequest.Image req = ""
  | StartCall req =>
      StartRequest.Service req = "" ∨ StartRequest.Ref req = ""
  end.


(** The value of the authorization metadata the interceptor looks at. *)
Definition credential (ctx : Context) : option string :=
  md ← incoming ctx; head (md_Get md "authorization").

(** ** Observations on a trace *)


(** A started process found the file [p] with the content [d]. *)
Definition observes (p : path) (d : string) (ev : Event) : Prop :=
  match ev with
  | EvExec _ seen => seen !! p = Some (File d)
  | _ => True
  end.

(** What each started process found at [p], with its arguments. *)
Definition found (p : path) (t : list Event) : list (list string * option node) :=
  omap (λ ev, match ev with
              | EvExec c seen => Some (Args c, seen !! p)
              | _ => None
              end) t.

(** The directories created as workspaces. *)
Definition workspaces (t : list Event) : list path :=
  omap (λ ev, match ev with EvMkdirTemp d => Some d | _ => None end) t.

(** The started processes. *)
Definition processes (t : list Event) : list Cmd :=
  omap (λ ev, match ev with EvExec c _ => Some c | _ => None end) t.

(** The directories of the control repository that were listed. *)
Definition listings (t : list Event) : list (string * string) :=
  omap (λ ev, match ev with EvGetContents p r => Some (p, r) | _ => None end) t.

(** The URLs that were fetched. *)
Definition fetches (t : list Event) : list string :=
  omap (λ ev, match ev with EvHttpGet u => Some u | _ => None end) t.

(** The download URLs of a listing that are not empty, in order. *)
Definition downloadable (l : list RepositoryContent) : list string :=
  filter (λ u, u ≠ "") (GetDownloadURL <$> l).

(** The command line of a compose step of Start. *)
Definition compose (workDir : path) (args : list string) : Cmd :=
  {| Path := "docker";
     Args := ["compose"; "-f"; "deploy.yaml"] ++ args;
     CmdDir := Some workDir |}.

(** The command line of the clone step of Assemble. *)
Definition clone (req : AssembleRequest.t) (tempDir : path) : Cmd :=
  {| Path := "git";
     Args := ["clone"; "https://github.com/baely/" +:+ AssembleRequest.Repo req;
              filepath.render (filepath.Join tempDir (AssembleRequest.Repo req))];
     CmdDir := None |}.

(** ** Sample worlds

    A host with a directory for temporary files, and collaborators that
    answer every request successfully. *)

Module Sample.

Definition host : FS := {[ ["tmp"] := Dir ]}.

Definition start : World := {| fs := host; trace := [] |}.

Definition listing : list RepositoryContent :=
  [ {| Name := Some "a"; DownloadURL := Some "https://raw.example/web/a" |};
    {| Name := Some "deploy.yaml";
       DownloadURL := Some "https://raw.example/web/deploy.yaml" |};
    {| Name := Some "nested"; DownloadURL := None |} ].

(** Every process succeeds and leaves the files alone; the control
    repository has the directory docker/web; every download answers 200
    with the body "remote". *)
Definition quiet : Env := {|
  nextRandom := λ _ _, "4242";
  Run := λ _ f, (f, None);
  GetContents := λ _ _ servicePath _,
    if decide (servicePath = "docker/web") then Done listing
    else Failed "404 Not Found";
  Get := λ _, HttpResponse 200 (Done "remote")
|}.

(** The same, but no download gets through. *)
Definition unreachable : Env := {|
  nextRandom := nextRandom quiet;
  Run := Run quiet;
  GetContents := GetContents quiet;
  Get := λ _, HttpFailed "connection refused"
|}.

(** A host on which an operator staged a descriptor for the service web. *)
Definition hostWithOverride : FS :=
  <[ ["app"; "services"; "web"; "deploy.yaml"] := File "local" ]>
  (<[ ["app"; "services"; "web"] := Dir ]>
  (<[ ["app"; "services"] := Dir ]>
  (<[ ["app"] := Dir ]> host))).

(** The same host, where the staged tree also has a directory [a] with a
    file in it. *)
Definition hostWithClash : FS :=
  <[ ["app"; "services"; "web"; "a"; "x"] := File "local x" ]>
  (<[ ["app"; "services"; "web"; "a"] := Dir ]> hostWithOverride).


Definition startWeb : StartRequest.t := {|
  StartRequest.Service := "web";
  StartRequest.Ref := "main"
|}.

Definition withAuthorization (values : list string) : Context :=
  {| incoming := Some {[ "authorization" := values ]} |}.

End Sample.

(** ** The processes of a call, as a plan

    Both pipelines start their processes one after the other and stop at the
    first that fails.  A plan lists the commands with the text that is put
    in front of the error of each. *)

(** The command line of the checkout step of Assemble. *)
Definition checkout (req : AssembleRequest.t) (tempDir : path) : Cmd :=
  {| Path := "git";
     Args := ["checkout"; AssembleRequest.Ref req];
     CmdDir := Some (filepath.Join tempDir (AssembleRequest.Repo req)) |}.

(** The command line of the build step of Assemble, for a resolved tag. *)
Definition build (req : AssembleRequest.t) (tempDir : path) (dockerTag : string) : Cmd :=
  {| Path := "docker";
     Args := ["build";
              "--tag"; "registry.baileys.dev/" +:+ AssembleRequest.Image req
                         +:+ ":" +:+ dockerTag;
              "--push"; "--platform"; "linux/amd64";
              "--file";
              getStringOrDefault (AssembleRequest.DockerfileLocation req) "Dockerfile";
              getStringOrDefault (AssembleRequest.ContextLocation req) "."];
     CmdDir := Some (filepath.Join tempDir (AssembleRequest.Repo req)) |}.

Definition assemblePlan (req : AssembleRequest.t) (tempDir : path)
  : list (string * Cmd) :=
  [("failed to clone repository: ", clone req tempDir);
   ("failed to checkout ref " +:+ AssembleRequest.Ref req +:+ ": ",
    checkout req tempDir)] ++
  match getDockerTag req with
  | Ok dockerTag => [("failed to build docker image: ", build req tempDir dockerTag)]
  | Err _ => []
  end.

Definition composePlan (workDir : path) : list (string * Cmd) :=
  [("failed to pull images: ", compose workDir ["pull"]);
   ("failed to start service: ", compose workDir ["up"; "-d"])].

(** Running a plan: the error of the first failing step, wrapped. *)
Fixpoint runAll (env : Env) (plan : list (string * Cmd)) : M unit :=
  match plan with
  | [] => mret tt
  | (msg, c) :: rest => wrapf msg (runCmd env c) ;; runAll env rest
  end.

(** The events of running a plan on a filesystem. *)
Fixpoint planEvents (env : Env) (plan : list (string * Cmd)) (f : FS) : list Event :=
  match plan with
  | [] => []
  | (_, c) :: rest =>
      EvExec c f ::
      match Run env c f with
      | (f', None) => planEvents env rest f'
      | (_, Some _) => []
      end
  end.

(** A recorded process failed. *)
Definition failed (env : Env) (ev : Event) : Prop :=
  match ev with
  | EvExec c seen => (Run env c seen).2 ≠ None
  | _ => False
  end.

(** ** The command-line client (tools/cmd/coachclient/main.go)

    The flags and the token the commands read. *)

Module coachclient.

Record Flags := {
  authToken : string;
  serverAddr : string;
  insecureConn : bool;
  repo : string;
  ref : string;
  dockerfileLocation : string;
  contextLocation : string;
  image : string;
  tag : string;
  service : string;
  startRef : string
}.

(** What the client is connected to: whether grpc.NewClient accepts the
    target, and what a call with its outgoing metadata comes back with. *)
Record Conn := {
  dial : string → bool → option string;
  invoke : gmap string (list string) → Request → M Response
}.

Section commands.
Context (conn : Conn) (fl : Flags).

Definition createClient : Result unit :=
  if decide (authToken fl = "") then
    Err (errorString "COACH_AUTH_TOKEN environment variable is required")
  else
    match dial conn (serverAddr fl) (insecureConn fl) with
    | Some msg => Err (wrapError "failed to connect to server: " (errorString msg))
    | None => Ok tt
    end.

(** metadata.AppendToOutgoingContext(ctx, "authorization", "Bearer " + token)
    on the empty context. *)
Definition outgoing : gmap string (list string) :=
  {[ "authorization" := ["Bearer " +:+ authToken fl] ]}.

Definition tagEnum : Result AssembleRequest_Tag :=
  if decide (tag fl = "latest") then Ok AssembleRequest_TAG_LATEST
  else if decide (tag fl = "sha") then Ok AssembleRequest_TAG_SHA
  else if decide (tag fl = "unspecified") then Ok AssembleRequest_TAG_UNSPECIFIED
  else Err (errorString ("invalid tag type: " +:+ tag fl
                           +:+ " (must be: unspecified, latest, sha)")).

Definition optional (s : string) : option string :=
  if decide (s ≠ "") then Some s else None.

(** The request runAssemble builds from the flags: the two locations are
    set only when their flag is not empty. *)
Definition assembleRequest (t : AssembleRequest_Tag) : AssembleRequest.t :=
  {| AssembleRequest.Repo := repo fl;
     AssembleRequest.Ref := ref fl;
     AssembleRequest.DockerfileLocation := optional (dockerfileLocation fl);
     AssembleRequest.ContextLocation := optional (contextLocation fl);
     AssembleRequest.Image := image fl;
     AssembleRequest.Tag := t |}.

Definition runAssemble : M unit :=
  ofResult createClient ;;
  t ← ofResult tagEnum;
  let req := assembleRequest t in
  wrapf "assemble failed: " (invoke conn outgoing (AssembleCall req)) ;;
  mret tt.

Definition runStart : M unit :=
  ofResult createClient ;;
  let req := {| StartRequest.Service := service fl;
                StartRequest.Ref := startRef fl |} in
  wrapf "start failed: " (invoke conn outgoing (StartCall req)) ;;
  mret tt.

End commands.

End coachclient.

(** The error of a handler as the client receives it: a status with the
    code of the error and its text. *)
Definition wire (e : error) : error :=
  statusError (status.Code e)
    match e with
    | statusError _ msg => msg
    | _ => Error e
    end.

(** What the gRPC client checks of the outgoing metadata before it sends a
    call (google.golang.org/grpc/internal/metadata). *)
Module metadata.

Definition between (lo hi c : ascii) : bool :=
  Nat.leb (nat_of_ascii lo) (nat_of_ascii c) && Nat.leb (nat_of_ascii c) (nat_of_ascii hi).

(** hasNotPrintable: a character outside space .. tilde. *)
Fixpoint hasNotPrintable (msg : string) : bool :=
  match msg with
  | EmptyString => false
  | String c msg' => negb (between " " "~" c) || hasNotPrintable msg'
  end.

Definition keyChar (c : ascii) : bool :=
  between "a" "z" c || between "0" "9" c ||
  Ascii.eqb c "." || Ascii.eqb c "-" || Ascii.eqb c "_".

Fixpoint keyChars (key : string) : bool :=
  match key with
  | EmptyString => true
  | String c key' => keyChar c && keyChars key'
  end.

(** ValidatePair: the error, if any. *)
Definition ValidatePair (key : string) (vals : list string) : option string :=
  match key with
  | EmptyString => Some "there is an empty key in the header"
  | String c _ =>
      if Ascii.eqb c ":" then None
      else if negb (keyChars key) then
        Some ("header key " +:+ key +:+ " contains illegal characters not in [0-9a-z-_.]")
      else if gostrings.HasSuffix key "-bin" then None
      else if existsb hasNotPrintable vals then
        Some ("header key " +:+ key +:+ " contains value with non-printable characters")
      else None
  end.

(** Validate: the error of a pair that is refused, if there is one (the
    order of a Go map is not specified). *)
Definition Validate (md : gmap string (list string)) : option string :=
  head (omap (λ kv, ValidatePair kv.1 kv.2) (map_to_list md)).

End metadata.

(** A client connected to the coach server that runs with the secret
    [serverToken].  The client refuses metadata that does not pass
    validation with the code Internal, before anything is sent; otherwise
    the metadata the client sends is the metadata the interceptor finds, and
    the error of the server comes back as a status.  A connection that does
    not work, and a message the client cannot encode or the server refuses
    to read, end the call without reaching the interceptor as well; they
    are not modelled. *)
Definition connected (env : Env) (serverToken : string) : coachclient.Conn := {|
  coachclient.dial := λ _ _, None;
  coachclient.invoke := λ md call w,
    match metadata.Validate md with
    | Some msg => (Err (statusError codes.Internal msg), w)
    | None =>
        match serve env serverToken {| incoming := Some md |} call w with
        | (Ok resp, w') => (Ok resp, w')
        | (Err e, w') => (Err (wire e), w')
        end
    end
|}.

(** The name a call works under: the repository of an Assemble, the service
    of a Start. *)
Definition workName (call : Request) : string :=
  match call with
  | AssembleCall req => AssembleRequest.Repo req
  | StartCall req => StartRequest.Service req
  end.

(** A component that names an entry: not empty, not [.] and not [..]. *)
Definition plain (seg : string) : Prop := seg ≠ "" ∧ seg ≠ "." ∧ seg ≠ "..".

(** [dir] is a directory the kernel finds under its resolved name: the
    name and everything above it are directories. *)
Definition isDirectory (f : FS) (dir : path) : Prop :=
  Forall plain dir ∧ ∀ q, q `prefix_of` dir → os.Stat f q = Some Dir.

(** Directories stay directories. *)
Definition keepsDirs (f f' : FS) : Prop :=
  ∀ q, os.Stat f q = Some Dir → os.Stat f' q = Some Dir.

(** Flags for an assemble of the blog with the given tag word. *)
Definition blogFlags (token tagWord : string) : coachclient.Flags := {|
  coachclient.authToken := token;
  coachclient.serverAddr := "coach.baileys.dev:443";
  coachclient.insecureConn := false;
  coachclient.repo := "blog";
  coachclient.ref := "main";
  coachclient.dockerfileLocation := "";
  coachclient.contextLocation := "";
  coachclient.image := "blog";
  coachclient.tag := tagWord;
  coachclient.service := "web";
  coachclient.startRef := "main"
|}.

(** A control repository that answers every listing with the sample
    listing. *)
Definition listsAnything : Env := {|
  nextRandom := nextRandom Sample.quiet;
  Run := Run Sample.quiet;
  GetContents := λ _ _ _ _, Done Sample.listing;
  Get := Get Sample.quiet
|}.

(** * Properties *)

Example Join_example : filepath.Join ["tmp"; "w"] "web" = ["tmp"; "w"; "web"].
Proof. reflexivity. Qed.

Example Join_dotdot : filepath.Join ["tmp"; "w"] ".." = ["tmp"].
Proof. reflexivity. Qed.

Example gopath_Join_example : gopath.Join "docker" "web" = "docker/web".
Proof. reflexivity. Qed.

Example resolve_example : filepath.resolve "/app/services/web" = ["app"; "services"; "web"].
Proof. reflexivity. Qed.

(** ** The state-and-error monad *)

Ltac munfold :=
  cbv beta iota zeta delta
    [mbind M_bind mret M_ret check fail ofResult wrapf defer try] in *.

(** ** Validation *)

Lemma validateAssembleRequest_missing (req : AssembleRequest.t) :
  missingField (AssembleCall req) →
  ∃ msg, validateAssembleRequest req = Some (errorString msg).
Proof.
  unfold missingField, validateAssembleRequest.
  intros H. repeat case_decide; eauto. tauto.
Qed.

Lemma validateStartRequest_missing (req : StartRequest.t) :
  missingField (StartCall req) →
  ∃ msg, validateStartRequest req = Some (errorString msg).
Proof.
  unfold missingField, validateStartRequest.
  intros H. repeat case_decide; eauto. tauto.
Qed.

(** C5 as stated fails: a request without a repo is rejected with a plain
    error, which the caller receives with the code Unknown, not
    InvalidArgument. *)
Lemma missing_field_not_InvalidArgument :
  ∃ e,
    handle Sample.quiet
      (AssembleCall {| AssembleRequest.Repo := "";
                       AssembleRequest.Ref := "main";
                       AssembleRequest.DockerfileLocation := None;
                       AssembleRequest.ContextLocation := None;
                       AssembleRequest.Image := "blog";
                       AssembleRequest.Tag := AssembleRequest_TAG_LATEST |})
      Sample.start = (Err e, Sample.start) ∧
    status.Code e ≠ codes.InvalidArgument.
Proof. eexists. split; [reflexivity | discriminate]. Qed.

(** C5, amended: a call with an empty required field (repo, ref or image
    for Assemble; service or ref for Start) returns a plain error, reported
    to the caller with the code Unknown, and leaves the world as it was: no
    workspace directory, no process, no request to a collaborator. *)
Theorem missing_field_rejected (env : Env) (call : Request) (w : World) :
  missingField call →
  ∃ msg, handle env call w = (Err (errorString msg), w) ∧
         status.Code (errorString msg) = codes.Unknown.
Proof.
  intros H. destruct call as [req | req]; simpl.
  - destruct (validateAssembleRequest_missing req H) as [msg Hv].
    exists msg. unfold Assemble. rewrite Hv. by munfold.
  - destruct (validateStartRequest_missing req H) as [msg Hv].
    exists msg. unfold Start. rewrite Hv. by munfold.
Qed.

Lemma missing_field_rejected_witness :
  ∃ msg, handle Sample.quiet
           (StartCall {| StartRequest.Service := "web"; StartRequest.Ref := "" |})
           Sample.start = (Err (errorString msg), Sample.start) ∧
         status.Code (errorString msg) = codes.Unknown.
Proof.
  apply (missing_field_rejected Sample.quiet
           (StartCall {| StartRequest.Service := "web"; StartRequest.Ref := "" |})).
  simpl. right. reflexivity.
Defined.

(** C8: Start for the orchestrator's own identity fails for every ref, and
    the world is left as it was: nothing of the deployment is attempted. *)
Theorem Start_self_deploy_rejected (env : Env) (ref : string) (w : World) :
  ∃ e, Start env {| StartRequest.Service := "github.com_baely_infra";
                    StartRequest.Ref := ref |} w = (Err e, w).
Proof.
  unfold Start, validateStartRequest. simpl.
  destruct (decide (ref = "")); munfold; eauto.
Qed.

(** C6: the tag is "latest" for the strategy Latest whatever the ref, the
    ref itself for the strategy Sha, and an error for Unspecified. *)
Theorem getDockerTag_resolution (repo ref image : string) (dockerfile context : option string) :
  let req t := {| AssembleRequest.Repo := repo;
                  AssembleRequest.Ref := ref;
                  AssembleRequest.DockerfileLocation := dockerfile;
                  AssembleRequest.ContextLocation := context;
                  AssembleRequest.Image := image;
                  AssembleRequest.Tag := t |} in
  getDockerTag (req AssembleRequest_TAG_LATEST) = Ok "latest" ∧
  getDockerTag (req AssembleRequest_TAG_SHA) = Ok ref ∧
  getDockerTag (req AssembleRequest_TAG_UNSPECIFIED)
    = Err (errorString "invalid docker tag").
Proof. done. Qed.

(** ** Authentication *)

Lemma strip_app (p s : string) : gostrings.strip p (p +:+ s) = Some s.
Proof.
  induction p as [|a p IH]; simpl; [done|].
  by rewrite Ascii.eqb_refl.
Qed.

Lemma TrimPrefix_app (p s : string) : gostrings.TrimPrefix (p +:+ s) p = s.
Proof. unfold gostrings.TrimPrefix. by rewrite strip_app. Qed.

Lemma TrimPrefix_absent (p s : string) :
  gostrings.HasPrefix s p = false → gostrings.TrimPrefix s p = s.
Proof.
  unfold gostrings.HasPrefix, gostrings.TrimPrefix.
  by destruct (gostrings.strip p s).
Qed.

Lemma credential_None (ctx : Context) :
  credential ctx = None →
  incoming ctx = None ∨
  ∃ md, incoming ctx = Some md ∧ md_Get md "authorization" = [].
Proof.
  unfold credential. destruct (incoming ctx) as [md|]; simpl; [|by left].
  destruct (md_Get md "authorization") eqn:E; [|done].
  right. eauto.
Qed.

Lemma credential_Some (ctx : Context) (h : string) :
  credential ctx = Some h →
  ∃ md rest, incoming ctx = Some md ∧ md_Get md "authorization" = h :: rest.
Proof.
  unfold credential. destruct (incoming ctx) as [md|]; simpl; [|done].
  destruct (md_Get md "authorization") as [|first rest] eqn:E; [done|].
  intros [= ->]. eauto.
Qed.

(** C4 as stated fails: a call without a credential and a call with a wrong
    one are both rejected as Unauthenticated, but not with the same error. *)
Lemma auth_failures_differ :
  let missing := serve Sample.quiet "s3cret" (Sample.withAuthorization [])
                   (StartCall Sample.startWeb) Sample.start in
  let wrong := serve Sample.quiet "s3cret" (Sample.withAuthorization ["Bearer guess"])
                 (StartCall Sample.startWeb) Sample.start in
  (∃ e, missing.1 = Err e ∧ status.Code e = codes.Unauthenticated) ∧
  (∃ e, wrong.1 = Err e ∧ status.Code e = codes.Unauthenticated) ∧
  missing.1 ≠ wrong.1.
Proof.
  vm_compute. split_and!; [by eexists | by eexists | discriminate].
Qed.

(** C4, amended: a call with a missing credential and a call with an
    incorrect one both fail with the code Unauthenticated before the handler
    runs, but the message of the error names the cause: "invalid token" for
    an incorrect credential, "metadata not found" or "authorization header
    required" for a missing one. *)
Theorem auth_failures_Unauthenticated
    (env : Env) (authToken : string) (ctx1 ctx2 : Context)
    (call1 call2 : Request) (w1 w2 : World) (h : string) :
  credential ctx1 = None →
  credential ctx2 = Some h →
  gostrings.TrimPrefix h "Bearer " ≠ authToken →
  ∃ msg,
    serve env authToken ctx1 call1 w1
      = (Err (statusError codes.Unauthenticated msg), w1) ∧
    serve env authToken ctx2 call2 w2
      = (Err (statusError codes.Unauthenticated "invalid token"), w2) ∧
    msg ≠ "invalid token" ∧
    (msg = "metadata not found" ∨ msg = "authorization header required").
Proof.
  intros Hmissing Hwrong Hne.
  destruct (credential_Some _ _ Hwrong) as (md2 & rest & Hmd2 & Hget2).
  assert (serve env authToken ctx2 call2 w2
          = (Err (statusError codes.Unauthenticated "invalid token"), w2)) as H2.
  { unfold serve, authInterceptor. rewrite Hmd2, Hget2.
    by rewrite decide_True. }
  destruct (credential_None _ Hmissing) as [Hmd1 | (md1 & Hmd1 & Hget1)].
  - exists "metadata not found". split_and!; [|done|done|by left].
    unfold serve, authInterceptor. by rewrite Hmd1.
  - exists "authorization header required". split_and!; [|done|done|by right].
    unfold serve, authInterceptor. by rewrite Hmd1, Hget1.
Qed.

Lemma auth_failures_Unauthenticated_witness :
  ∃ msg,
    serve Sample.quiet "s3cret" (Sample.withAuthorization [])
      (StartCall Sample.startWeb) Sample.start
      = (Err (statusError codes.Unauthenticated msg), Sample.start) ∧
    serve Sample.quiet "s3cret" (Sample.withAuthorization ["Bearer guess"])
      (StartCall Sample.startWeb) Sample.start
      = (Err (statusError codes.Unauthenticated "invalid token"), Sample.start) ∧
    msg ≠ "invalid token" ∧
    (msg = "metadata not found" ∨ msg = "authorization header required").
Proof.
  apply (auth_failures_Unauthenticated Sample.quiet "s3cret"
           (Sample.withAuthorization []) (Sample.withAuthorization ["Bearer guess"])
           (StartCall Sample.startWeb) (StartCall Sample.startWeb)
           Sample.start Sample.start "Bearer guess").
  - reflexivity.
  - reflexivity.
  - vm_compute. discriminate.
Defined.

(** C9: a call whose authorization value is the configured secret itself,
    not starting with "Bearer ", passes the interceptor, and so does the
    value "Bearer " followed by the secret: the handler runs. *)
Theorem bare_token_accepted
    (env : Env) (authToken : string) (ctx : Context) (call : Request)
    (w : World) (h : string) :
  credential ctx = Some h →
  h = "Bearer " +:+ authToken ∨
  (h = authToken ∧ gostrings.HasPrefix h "Bearer " = false) →
  serve env authToken ctx call w = handle env call w.
Proof.
  intros Hcred Hh.
  destruct (credential_Some _ _ Hcred) as (md & rest & Hmd & Hget).
  unfold serve, authInterceptor. rewrite Hmd, Hget.
  rewrite decide_False; [done|].
  intros Hne. apply Hne.
  destruct Hh as [-> | [-> Hp]].
  - apply TrimPrefix_app.
  - by apply TrimPrefix_absent.
Qed.

(** A secret that itself starts with "Bearer " is stripped like any other
    value, so sent as it is it does not pass. *)
Example prefixed_secret_sent_bare :
  (serve Sample.quiet "Bearer s3cret" (Sample.withAuthorization ["Bearer s3cret"])
     (StartCall Sample.startWeb) Sample.start).1
  = Err (statusError codes.Unauthenticated "invalid token").
Proof. vm_compute. reflexivity. Qed.

Lemma bare_token_accepted_witness :
  serve Sample.quiet "s3cret" (Sample.withAuthorization ["s3cret"])
    (StartCall Sample.startWeb) Sample.start
  = handle Sample.quiet (StartCall Sample.startWeb) Sample.start.
Proof.
  apply (bare_token_accepted Sample.quiet "s3cret"
           (Sample.withAuthorization ["s3cret"]) (StartCall Sample.startWeb)
           Sample.start "s3cret").
  - reflexivity.
  - right. split; reflexivity.
Defined.

(** ** Effects, one step at a time *)

Lemma trace_emit (ev : Event) (w : World) : trace (emit ev w) = trace w ++ [ev].
Proof. done. Qed.

Lemma MkdirTemp_inv (env : Env) (pattern : string) (w : World)
    (r : Result path) (w1 : World) :
  MkdirTemp env pattern w = (r, w1) →
  (∃ e, r = Err (errorString e) ∧ w1 = w) ∨
  (∃ name f, r = Ok (os.TempDir ++ [name]) ∧
     gostrings.ContainsByte pattern "/" = false ∧
     os.Mkdir (os.TempDir ++ [name]) (fs w) = Some f ∧
     w1 = emit (EvMkdirTemp (os.TempDir ++ [name])) (setFs f w)).
Proof.
  unfold MkdirTemp.
  destruct (gostrings.ContainsByte pattern "/").
  { intros [= <- <-]. left. eauto. }
  destruct (match gostrings.cutLast pattern "*" with
            | Some ps => ps | None => (pattern, "") end) as [prefix suffix].
  destruct (os.Mkdir _ (fs w)) as [f|] eqn:E.
  - intros [= <- <-]. right. eauto 10.
  - intros [= <- <-]. left. eauto.
Qed.

Lemma runCmd_eq (env : Env) (c : Cmd) (w : World) :
  ∃ r, runCmd env c w
       = (r, emit (EvExec c (fs w)) (setFs (Run env c (fs w)).1 w)) ∧
       (∀ e, r = Err e → ∃ msg, e = errorString msg).
Proof.
  unfold runCmd. destruct (Run env c (fs w)) as [f [msg|]]; simpl.
  - eexists. split; [done|]. intros e [= <-]. eauto.
  - eexists. split; [done|]. done.
Qed.

(** ** Assemble *)





(** ** Workspaces *)

Lemma Stat_RemoveAll (f : FS) (p q : path) :
  p ≠ [] → p `prefix_of` q → os.Stat (os.RemoveAll p f) q = None.
Proof.
  intros Hp Hpq. unfold os.Stat, os.RemoveAll.
  rewrite decide_False.
  - apply map_lookup_filter_None. right. intros x _ Hx. by apply Hx.
  - intros ->. by apply prefix_nil_inv in Hpq.
Qed.

Ltac step_run :=
  match goal with
  | |- context [runCmd ?env ?c ?w0] =>
      let r := fresh "r" in
      destruct (runCmd_eq env c w0) as (r & -> & _); destruct r as [[]|?]
  end.

(** Assemble removes the workspace it created, on every path. *)
Lemma Assemble_workspace_removed (env : Env) (req : AssembleRequest.t)
    (w : World) (r : Result AssembleResponse) (w' : World) :
  Assemble env req w = (r, w') →
  ∃ evs, trace w' = trace w ++ evs ∧
         ∀ d, d ∈ workspaces evs → os.Stat (fs w') d = None.
Proof.
  unfold Assemble.
  destruct (validateAssembleRequest req) as [e|] eqn:Hv; munfold.
  { intros [= <- <-]. exists []. split; [by rewrite app_nil_r|].
    intros d Hd. by apply elem_of_nil in Hd. }
  destruct (MkdirTemp env _ w) as [r0 w1] eqn:Hmk.
  destruct (MkdirTemp_inv _ _ _ _ _ Hmk) as [(e & -> & ->) | (name & f & -> & _ & Hf & ->)].
  { intros [= <- <-]. exists []. split; [by rewrite app_nil_r|].
    intros d Hd. by apply elem_of_nil in Hd. }
  unfold cloneRepo, checkoutRef, buildDockerImage.
  assert (∀ (f' : FS) d, d ∈ [os.TempDir ++ [name]] →
            os.Stat (os.RemoveAll (os.TempDir ++ [name]) f') d = None) as Hgone.
  { intros f' d ->%list_elem_of_singleton. by apply Stat_RemoveAll. }
  step_run; [step_run; [destruct (getDockerTag req) as [tag|e]; [step_run|]|]|];
    intros [= <- <-];
    (eexists; split; [simpl; rewrite <- ?app_assoc; simpl; reflexivity | apply Hgone]).
Qed.

(** C2 fails on the code for Start: the call returns successfully and the
    directory it created for the workspace is still there.  Start removes
    only the subdirectory named after the service, not the temporary
    directory around it. *)
Theorem Start_leaves_workspace :
  let after := Start Sample.quiet Sample.startWeb Sample.start in
  after.1 = Ok mkStartResponse ∧
  workspaces (trace after.2) = [["tmp"; "coach-service-web-4242"]] ∧
  os.Stat (fs after.2) ["tmp"; "coach-service-web-4242"] = Some Dir ∧
  os.Stat (fs after.2) ["tmp"; "coach-service-web-4242"; "web"] = None.
Proof. cbv zeta. split_and!; vm_compute; reflexivity. Qed.

(** ** Assemble: the pushed image *)

(** The only docker process Assemble starts is the build, and it pushes the
    image under the tag that getDockerTag resolved. *)
Lemma Assemble_builds_resolved_tag (env : Env) (req : AssembleRequest.t) (w : World) :
  ∃ evs,
    trace (Assemble env req w).2 = trace w ++ evs ∧
    ∀ c, c ∈ processes evs → Path c = "docker" →
         ∃ tag, getDockerTag req = Ok tag ∧
                Args c !! 2
                = Some ("registry.baileys.dev/" +:+ AssembleRequest.Image req
                          +:+ ":" +:+ tag).
Proof.
  unfold Assemble.
  destruct (validateAssembleRequest req) as [e|] eqn:Hv; munfold.
  { exists []. split; [by rewrite app_nil_r|]. by intros c ?%elem_of_nil. }
  destruct (MkdirTemp env _ w) as [r0 w1] eqn:Hmk.
  destruct (MkdirTemp_inv _ _ _ _ _ Hmk)
    as [(e & -> & ->) | (name & f & -> & _ & Hf & ->)].
  { exists []. split; [by rewrite app_nil_r|]. by intros c ?%elem_of_nil. }
  unfold cloneRepo, checkoutRef, buildDockerImage.
  step_run; [step_run; [destruct (getDockerTag req) as [tag|e]; [step_run|]|]|];
    (eexists; split; [simpl; rewrite <- ?app_assoc; simpl; reflexivity |]);
    intros c Hc Hdocker; simpl in Hc;
    repeat (apply elem_of_cons in Hc as [-> | Hc]; [try discriminate Hdocker|]);
    try (by apply elem_of_nil in Hc); eauto.
Qed.

(** ** Start: the listing of the service directory *)

(** C3 as stated fails twice over.  A service whose directory is missing
    from the control repository is rejected with a plain error, which the
    caller receives as Unknown, not NotFound.  And when the directory is
    listed but no file can be downloaded from it, the call is not rejected
    for that: with a descriptor staged on the host it succeeds. *)
Lemma Start_not_NotFound :
  (∃ e,
     (Start Sample.quiet {| StartRequest.Service := "absent";
                            StartRequest.Ref := "main" |} Sample.start).1
       = Err e ∧
     status.Code e ≠ codes.NotFound) ∧
  (let w := {| fs := Sample.hostWithOverride; trace := [] |} in
   (∃ dir, (fetchServiceFiles Sample.unreachable "web" "main" w).1 = Ok (dir, 0)) ∧
   (Start Sample.unreachable Sample.startWeb w).1 = Ok mkStartResponse).
Proof.
  split.
  - eexists. split; [vm_compute; reflexivity | discriminate].
  - split; [eexists|]; vm_compute; reflexivity.
Qed.

(** C3, amended: a Start call for which the directory docker/<service> is
    missing at the ref (its listing fails with an error of the GitHub client
    that is not the error of a done context) or has no entries fails with a
    plain error, reported to the caller as Unknown, before any workspace or
    process is created: the listing request is the only thing that
    happened. *)
Theorem Start_listing_missing (env : Env) (req : StartRequest.t) (w : World) :
  let servicePath := gopath.Join "docker" (StartRequest.Service req) in
  let answer := GetContents env "baely" "infra" servicePath (StartRequest.Ref req) in
  validateStartRequest req = None →
  (∃ msg, answer = Failed msg) ∨ answer = Done [] →
  ∃ e, Start env req w
         = (Err e, emit (EvGetContents servicePath (StartRequest.Ref req)) w) ∧
       status.Code e = codes.Unknown.
Proof.
  intros servicePath answer Hv Hanswer.
  unfold Start, downloadServiceConfig, fetchServiceFiles, getContents.
  rewrite Hv. munfold. fold servicePath. fold answer.
  destruct Hanswer as [[msg ->] | ->]; eauto.
Qed.

Lemma Start_listing_missing_witness :
  ∃ e, Start Sample.quiet {| StartRequest.Service := "absent";
                             StartRequest.Ref := "main" |} Sample.start
         = (Err e, emit (EvGetContents "docker/absent" "main") Sample.start) ∧
       status.Code e = codes.Unknown.
Proof.
  apply (Start_listing_missing Sample.quiet
           {| StartRequest.Service := "absent"; StartRequest.Ref := "main" |}
           Sample.start).
  - reflexivity.
  - left. eexists. reflexivity.
Defined.

(** ** Start: what is fetched *)

Lemma WriteFile_trace (p : path) (data : string) (w : World) :
  trace (WriteFile p data w).2 = trace w.
Proof. unfold WriteFile. by destruct (os.WriteFile p data (fs w)). Qed.

Lemma MkdirAll_trace (p : path) (w : World) : trace (MkdirAll p w).2 = trace w.
Proof. unfold MkdirAll. by destruct (os.MkdirAll p (fs w)). Qed.

Lemma ReadFile_world (p : path) (w : World) : (ReadFile p w).2 = w.
Proof. unfold ReadFile. by destruct (os.ReadFile p (fs w)). Qed.

Lemma downloadFileToPath_trace (env : Env) (url : string) (p : path) (w : World) :
  trace (downloadFileToPath env url p w).2 = trace w ++ [EvHttpGet url].
Proof.
  unfold downloadFileToPath.
  destruct (Get env url) as [msg | code [b | msg | c msg]]; [done| | |];
    case_decide; try done.
  by rewrite WriteFile_trace.
Qed.

Lemma downloadAll_spec (env : Env) (dir : path) (l : list RepositoryContent) :
  ∀ (n : nat) (w : World),
    ∃ m w', downloadAll env dir l n w = (Ok m, w') ∧
            trace w' = trace w ++ (EvHttpGet <$> downloadable l).
Proof.
  induction l as [|content rest IH]; intros n w; simpl.
  { exists n, w. by rewrite app_nil_r. }
  unfold downloadable. rewrite fmap_cons, filter_cons.
  destruct (decide (GetDownloadURL content = "")) as [Hurl | Hurl].
  { rewrite decide_False by (by intros ?). apply IH. }
  rewrite decide_True by done. rewrite fmap_cons.
  munfold.
  pose proof (downloadFileToPath_trace env (GetDownloadURL content)
                (filepath.Join dir (GetName content)) w) as Ht.
  destruct (downloadFileToPath env _ _ w) as [[[]|e] w1]; simpl in Ht.
  - destruct (IH (S n) w1) as (m & w' & -> & Hw').
    exists m, w'. split; [done|].
    rewrite Hw', Ht. by rewrite <- app_assoc.
  - destruct (IH n w1) as (m & w' & -> & Hw').
    exists m, w'. split; [done|].
    rewrite Hw', Ht. by rewrite <- app_assoc.
Qed.

Lemma copyEntry_trace (source dest : path) (entry : path * node) (w : World) :
  trace (copyEntry source dest entry w).2 = trace w.
Proof.
  destruct entry as [p [data|]]; simpl.
  - munfold. pose proof (ReadFile_world p w) as Hr.
    destruct (ReadFile p w) as [[b|e] w1]; simpl in Hr; subst w1; [|done].
    apply WriteFile_trace.
  - apply MkdirAll_trace.
Qed.

Lemma forEach_copy_trace (source dest : path) (l : list (path * node)) :
  ∀ w, trace (forEach (copyEntry source dest) l w).2 = trace w.
Proof.
  induction l as [|entry l IH]; intros w; simpl; [done|].
  munfold. pose proof (copyEntry_trace source dest entry w) as Ht.
  destruct (copyEntry source dest entry w) as [[[]|e] w1]; simpl in Ht; [|done].
  by rewrite IH.
Qed.

Lemma copyMountedServiceFiles_trace (sourcePath : string) (dest : path) (w : World) :
  trace (copyMountedServiceFiles sourcePath dest w).2 = trace w.
Proof.
  unfold copyMountedServiceFiles.
  destruct (os.Lstat (fs w) (gostrings.Split sourcePath)) as [[]|[source info]];
    cbn [os.IsNotExist]; [done | done |].
  apply forEach_copy_trace.
Qed.

Lemma ContainsByte_app (a b : string) (c : ascii) :
  gostrings.ContainsByte (a +:+ b) c
  = gostrings.ContainsByte a c || gostrings.ContainsByte b c.
Proof.
  induction a as [|x a IH]; simpl; [done|].
  rewrite IH. by destruct (Ascii.eqb x c).
Qed.

Lemma fetchServiceFiles_inv (env : Env) (serviceName ref : string) (w : World)
    (r : Result (path * nat)) (w1 : World) :
  let servicePath := gopath.Join "docker" serviceName in
  fetchServiceFiles env serviceName ref w = (r, w1) →
  (∃ e ws, r = Err e ∧
     (status.Code e = codes.Unknown ∨
      ∃ c msg, GetContents env "baely" "infra" servicePath ref = Interrupted c msg) ∧
     trace w1 = trace w ++ EvGetContents servicePath ref :: (EvMkdirTemp <$> ws)) ∨
  (∃ l name n,
     GetContents env "baely" "infra" servicePath ref = Done l ∧
     gostrings.ContainsByte serviceName "/" = false ∧
     r = Ok (filepath.Join (os.TempDir ++ [name]) serviceName, n) ∧
     trace w1 = trace w ++ EvGetContents servicePath ref
                  :: EvMkdirTemp (os.TempDir ++ [name])
                  :: (EvHttpGet <$> downloadable l)).
Proof.
  intros servicePath. unfold fetchServiceFiles, getContents. fold servicePath.
  munfold.
  destruct (GetContents env "baely" "infra" servicePath ref) as [l | msg | c msg].
  2:{ intros [= <- <-]. left. eexists _, []. split_and!; [done | by left | done]. }
  2:{ intros [= <- <-]. left. eexists _, []. split_and!; [done | right; eauto | done]. }
  case_decide as Hl.
  { intros [= <- <-]. left. eexists _, []. split_and!; [done | by left | done]. }
  destruct (MkdirTemp env _ _) as [r0 w0] eqn:Hmk.
  destruct (MkdirTemp_inv _ _ _ _ _ Hmk)
    as [(e & -> & ->) | (name & f & -> & Hsep & Hf & ->)].
  { intros [= <- <-]. left. eexists _, []. split_and!; [done | by left | done]. }
  unfold MkdirAll at 1. cbn [fs setFs emit].
  destruct (os.MkdirAll _ f) as [f'|] eqn:Hf'.
  2:{ intros [= <- <-]. left. eexists _, [os.TempDir ++ [name]].
      split_and!; [done | by left |]. simpl. by rewrite <- app_assoc. }
  match goal with |- context [downloadAll env ?d l 0 ?w0] =>
    destruct (downloadAll_spec env d l 0 w0) as (m & w' & -> & Hw') end.
  intros [= <- <-]. right. exists l, name, m.
  split_and!; [done | | done | ].
  - rewrite !ContainsByte_app in Hsep.
    destruct (gostrings.ContainsByte serviceName "/"); [|done].
    vm_compute in Hsep. discriminate.
  - rewrite Hw'. simpl. by rewrite <- !app_assoc.
Qed.

Lemma validateDeployFile_world (workDir : path) (w : World) :
  (validateDeployFile workDir w).2 = w.
Proof.
  unfold validateDeployFile.
  by destruct (os.IsNotExist (os.Lstat (fs w) (filepath.Join workDir "deploy.yaml"))).
Qed.

(** The steps under the cleanup: at most the two compose steps, pull on
    the workspace as it is, up on what pull left. *)
Lemma deploy_trace (env : Env) (dir : path) (w : World) :
  let pull := EvExec (compose dir ["pull"]) (fs w) in
  let up := EvExec (compose dir ["up"; "-d"])
              (Run env (compose dir ["pull"]) (fs w)).1 in
  ∃ steps, trace (deploy env dir w).2 = trace w ++ steps ∧
           (steps = [] ∨ steps = [pull] ∨ steps = [pull; up]).
Proof.
  cbv zeta. unfold deploy. munfold.
  pose proof (validateDeployFile_world dir w) as Hd.
  destruct (validateDeployFile dir w) as [[[]|ed] w3]; simpl in Hd; subst w3.
  2:{ exists []. split; [by rewrite app_nil_r | by left]. }
  unfold runDockerCompose.
  fold (compose dir ["pull"]). fold (compose dir ["up"; "-d"]).
  destruct (runCmd_eq env (compose dir ["pull"]) w) as (r1 & -> & _).
  destruct r1 as [[]|e1].
  2:{ eexists [_]. split; [done | right; by left]. }
  match goal with |- context [runCmd env (compose dir ["up"; "-d"]) ?w0] =>
    destruct (runCmd_eq env (compose dir ["up"; "-d"]) w0) as (r2 & -> & _) end.
  destruct r2 as [[]|e2];
    (eexists [_; _]; split; [simpl; by rewrite <- app_assoc | right; by right]).
Qed.

(** Start after the files of the service were fetched into [dir]: the
    mounted files are copied, the steps under the cleanup run on the
    result. *)
Lemma Start_run (env : Env) (req : StartRequest.t) (w : World)
    (dir : path) (n : nat) (w1 : World) :
  validateStartRequest req = None →
  fetchServiceFiles env (StartRequest.Service req) (StartRequest.Ref req) w
    = (Ok (dir, n), w1) →
  let w2 := (copyMountedServiceFiles
               ("/app/services/" +:+ StartRequest.Service req) dir w1).2 in
  Start env req w
  = ((deploy env dir w2).1, RemoveAll dir (deploy env dir w2).2).
Proof.
  intros Hv Hfetch. cbv zeta.
  unfold Start, downloadServiceConfig. rewrite Hv. munfold. rewrite Hfetch.
  destruct (copyMountedServiceFiles _ dir w1) as [[[]|ec] w2]; cbn [snd];
    by destruct (deploy env dir w2).
Qed.

Lemma fetches_gets (urls : list string) : fetches (EvHttpGet <$> urls) = urls.
Proof. induction urls as [|u urls IH]; [done|]. simpl. by f_equal. Qed.

Lemma listings_gets (urls : list string) : listings (EvHttpGet <$> urls) = [].
Proof. by induction urls. Qed.

Lemma fetches_workspaces (ws : list path) : fetches (EvMkdirTemp <$> ws) = [].
Proof. by induction ws. Qed.

Lemma listings_workspaces (ws : list path) : listings (EvMkdirTemp <$> ws) = [].
Proof. by induction ws. Qed.

(** C10: of the directory docker/<service> only the entries with a download
    URL are fetched, in the order of the listing; entries without one are
    skipped.  That directory is the only one ever listed, so nothing below
    its top level is downloaded. *)
Theorem Start_fetches_top_level (env : Env) (req : StartRequest.t) (w : World) :
  let servicePath := gopath.Join "docker" (StartRequest.Service req) in
  ∃ evs,
    trace (Start env req w).2 = trace w ++ evs ∧
    (listings evs = [] ∨ listings evs = [(servicePath, StartRequest.Ref req)]) ∧
    (fetches evs = [] ∨
     ∃ l, GetContents env "baely" "infra" servicePath (StartRequest.Ref req) = Done l ∧
          fetches evs = downloadable l).
Proof.
  intros servicePath.
  destruct (validateStartRequest req) as [e|] eqn:Hv.
  { exists []. unfold Start. rewrite Hv. munfold.
    split_and!; [by rewrite app_nil_r | by left | by left]. }
  destruct (fetchServiceFiles env (StartRequest.Service req) (StartRequest.Ref req) w)
    as [r w1] eqn:Hfetch.
  destruct (fetchServiceFiles_inv _ _ _ _ _ _ Hfetch)
    as [(e & ws & -> & _ & Hw1) | (l & name & n & Hl & _ & -> & Hw1)];
    fold servicePath in Hw1.
  - eexists. split_and!.
    + unfold Start, downloadServiceConfig. rewrite Hv. munfold. rewrite Hfetch.
      exact Hw1.
    + right. simpl. by rewrite listings_workspaces.
    + left. simpl. by rewrite fetches_workspaces.
  - rewrite (Start_run _ _ _ _ _ _ Hv Hfetch). cbn [snd].
    set (w2 := (copyMountedServiceFiles _ _ w1).2).
    destruct (deploy_trace env (filepath.Join (os.TempDir ++ [name]) (StartRequest.Service req)) w2)
      as (steps & Hsteps & Hcases).
    assert (trace w2 = trace w1) as Hw2 by apply copyMountedServiceFiles_trace.
    exists (EvGetContents servicePath (StartRequest.Ref req)
              :: EvMkdirTemp (os.TempDir ++ [name])
              :: (EvHttpGet <$> downloadable l) ++ steps).
    split_and!.
    + unfold RemoveAll. cbn [trace setFs]. rewrite Hsteps, Hw2, Hw1.
      by rewrite <- app_assoc.
    + right. simpl. unfold listings. rewrite omap_app.
      fold (listings (EvHttpGet <$> downloadable l)). rewrite listings_gets.
      by destruct Hcases as [-> | [-> | ->]].
    + right. exists l. split; [done|].
      simpl. unfold fetches. rewrite omap_app.
      fold (fetches (EvHttpGet <$> downloadable l)). rewrite fetches_gets.
      destruct Hcases as [-> | [-> | ->]]; simpl; by rewrite app_nil_r.
Qed.

Example Start_fetches_sample :
  fetches (trace (Start Sample.quiet Sample.startWeb Sample.start).2)
  = ["https://raw.example/web/a"; "https://raw.example/web/deploy.yaml"].
Proof. vm_compute. reflexivity. Qed.

(** ** The filesystem under the copy of the mounted files *)

Lemma prefixes_elem (base p q : path) :
  q ∈ os.prefixes base p → ∃ k, q = base ++ k ∧ k ≠ [].
Proof.
  revert base. induction p as [|x p IH]; intros base; simpl.
  { by intros ?%elem_of_nil. }
  intros [-> | Hq]%elem_of_cons.
  - by exists [x].
  - destruct (IH _ Hq) as (k & -> & Hk). exists (x :: k).
    split; [by rewrite <- app_assoc | done].
Qed.

Lemma lookup_mkdirs (f : FS) (ps : list path) (q : path) :
  foldr (λ q m, <[q := Dir]> m) f ps !! q
  = if decide (q ∈ ps) then Some Dir else f !! q.
Proof.
  induction ps as [|p ps IH].
  { case_decide as Hin; [by apply elem_of_nil in Hin | done]. }
  cbn [foldr]. destruct (decide (p = q)) as [-> | Hne].
  - rewrite lookup_insert_eq. rewrite decide_True; [done | by left].
  - rewrite lookup_insert_ne by done. rewrite IH.
    destruct (decide (q ∈ ps)).
    + rewrite decide_True; [done | by right].
    + rewrite decide_False; [done|]. by intros [->|?]%elem_of_cons.
Qed.

(** MkdirAll never replaces a file. *)
Lemma MkdirAll_keeps_files (p q : path) (f f' : FS) (d : string) :
  os.MkdirAll p f = Some f' →
  f !! q = Some (File d) → f' !! q = Some (File d).
Proof.
  unfold os.MkdirAll.
  destruct (forallb (os.notFile f) (os.prefixes [] p)) eqn:Hall; [|done].
  intros [= <-] Hq. rewrite lookup_mkdirs.
  destruct (decide (q ∈ os.prefixes [] p)) as [Hin|]; [|done].
  apply Is_true_true, forallb_True in Hall.
  rewrite Forall_forall in Hall. specialize (Hall q Hin).
  destruct (prefixes_elem _ _ _ Hin) as (k & -> & Hk). simpl in *.
  unfold os.notFile, os.Stat in Hall.
  rewrite decide_False in Hall by done. by rewrite Hq in Hall.
Qed.

Lemma WriteFile_inv (p : path) (data : string) (f f' : FS) :
  os.WriteFile p data f = Some f' → f' = <[p := File data]> f.
Proof.
  unfold os.WriteFile.
  destruct (os.Stat f p) as [[?|]|]; destruct (os.Stat f (removelast p)) as [[?|]|];
    naive_solver.
Qed.

Lemma ReadFile_inv (p : path) (f : FS) (data : string) :
  os.ReadFile p f = Some data → f !! p = Some (File data).
Proof.
  unfold os.ReadFile, os.Stat. case_decide; [done|].
  destruct (f !! p) as [[?|]|]; naive_solver.
Qed.

Lemma copyEntry_inv (source dest : path) (p : path) (info : node) (w w1 : World) :
  copyEntry source dest (p, info) w = (Ok tt, w1) →
  match info with
  | Dir => ∃ f', os.MkdirAll (dest ++ filepath.Rel source p) (fs w) = Some f' ∧
                 fs w1 = f'
  | File _ => ∃ data, fs w !! p = Some (File data) ∧
                      fs w1 = <[dest ++ filepath.Rel source p := File data]> (fs w)
  end.
Proof.
  destruct info as [d0|]; simpl.
  - munfold. unfold ReadFile.
    destruct (os.ReadFile p (fs w)) as [data|] eqn:Hread; [|done].
    unfold WriteFile.
    destruct (os.WriteFile _ data (fs w)) as [f'|] eqn:Hwrite; [|done].
    intros [= <-]. exists data. split; [by apply ReadFile_inv|].
    by apply WriteFile_inv in Hwrite.
  - unfold MkdirAll. destruct (os.MkdirAll _ (fs w)) as [f'|]; [|done].
    intros [= <-]. eauto.
Qed.

(** One step of the copy keeps every file it does not write to. *)
Lemma copyEntry_keeps_files (source dest : path) (p : path) (info : node)
    (w w1 : World) (q : path) (d : string) :
  copyEntry source dest (p, info) w = (Ok tt, w1) →
  fs w !! q = Some (File d) →
  (info ≠ Dir → dest ++ filepath.Rel source p ≠ q) →
  fs w1 !! q = Some (File d).
Proof.
  intros Hstep Hq Hne. apply copyEntry_inv in Hstep.
  destruct info as [d0|].
  - destruct Hstep as (data & _ & ->). rewrite lookup_insert_ne; [done|].
    by apply Hne.
  - destruct Hstep as (f' & Hmk & ->). by eapply MkdirAll_keeps_files.
Qed.

Lemma forEach_inv {A} (f : A → M unit) (x : A) (l : list A) (w w' : World) :
  forEach f (x :: l) w = (Ok tt, w') →
  ∃ w1, f x w = (Ok tt, w1) ∧ forEach f l w1 = (Ok tt, w').
Proof.
  simpl. munfold. destruct (f x w) as [[[]|e] w1]; [|done]. eauto.
Qed.

Lemma forEach_keeps_files (source dest : path) (l : list (path * node))
    (q : path) (d : string) :
  ∀ w w',
    forEach (copyEntry source dest) l w = (Ok tt, w') →
    fs w !! q = Some (File d) →
    (∀ p info, (p, info) ∈ l → info ≠ Dir → dest ++ filepath.Rel source p ≠ q) →
    fs w' !! q = Some (File d).
Proof.
  induction l as [|[p info] l IH]; intros w w' Hrun Hq Hne.
  { by injection Hrun as <-. }
  apply forEach_inv in Hrun as (w1 & Hstep & Hrest).
  apply (IH w1 w' Hrest).
  - eapply copyEntry_keeps_files; [done | done |].
    apply Hne. by left.
  - intros p' info' Hin. apply Hne. by right.
Qed.

Lemma Rel_app (source rel : path) : filepath.Rel source (source ++ rel) = rel.
Proof. apply drop_app_length. Qed.

Lemma Rel_inj (source p q : path) :
  source `prefix_of` p → source `prefix_of` q →
  filepath.Rel source p = filepath.Rel source q → p = q.
Proof. intros [k ->] [k' ->]. rewrite !Rel_app. by intros ->. Qed.

Section copy.
Context (source dest : path).
(** The mounted tree and the workspace are apart. *)
Hypothesis apart : ∀ p rel, source `prefix_of` p → p ≠ dest ++ rel.

(** After a walk without an error, every file the walk visited is in the
    destination with its content. *)
Lemma forEach_copies (l : list (path * node)) :
  ∀ w w',
    forEach (copyEntry source dest) l w = (Ok tt, w') →
    NoDup l.*1 →
    (∀ p info, (p, info) ∈ l → source `prefix_of` p) →
    (∀ p d, (p, File d) ∈ l → fs w !! p = Some (File d)) →
    ∀ p d, (p, File d) ∈ l →
           fs w' !! (dest ++ filepath.Rel source p) = Some (File d).
Proof.
  induction l as [|[p0 info0] l IH]; intros w w' Hrun Hnodup Hbelow Hfiles p d Hin.
  { by apply elem_of_nil in Hin. }
  apply forEach_inv in Hrun as (w1 & Hstep & Hrest).
  apply NoDup_cons in Hnodup as [Hp0 Hnodup].
  apply elem_of_cons in Hin as [[= <- <-] | Hin].
  - (* the file just written stays *)
    apply (forEach_keeps_files source dest l _ d w1 w' Hrest).
    + apply copyEntry_inv in Hstep as (data & Hdata & ->).
      rewrite (Hfiles p d) in Hdata by (by left).
      injection Hdata as <-. apply lookup_insert_eq.
    + intros p' info' Hin' _ Heq.
      apply app_inv_head in Heq.
      apply Rel_inj in Heq; [| by eapply Hbelow; right | by eapply Hbelow; left].
      subst p'. apply Hp0. by apply (list_elem_of_fmap_2 fst _ (p, info')).
  - apply (IH w1 w' Hrest Hnodup); [| | done].
    + intros p' info' Hin'. eapply Hbelow. by right.
    + intros p' d' Hin'.
      eapply copyEntry_keeps_files; [done | apply Hfiles; by right |].
      intros _ Heq. eapply apart; [|by symmetry].
      eapply Hbelow. by right.
Qed.

End copy.

(** What the walk of a directory visits. *)
Lemma Walk_Dir (f : FS) (root : path) :
  os.Stat f root = Some Dir →
  NoDup (Walk f root).*1 ∧
  (∀ p info, (p, info) ∈ Walk f root → root `prefix_of` p) ∧
  (∀ p d, (p, File d) ∈ Walk f root → f !! p = Some (File d)) ∧
  (∀ rel d, os.Stat f (root ++ rel) = Some (File d) →
            (root ++ rel, File d) ∈ Walk f root).
Proof.
  intros Hroot. unfold Walk. rewrite Hroot.
  set (below := filter (λ kv : path * node, root `prefix_of` kv.1 ∧ kv.1 ≠ root)
                  (map_to_list f)).
  assert (∀ x, x ∈ merge_sort entry_le below ↔
               (root `prefix_of` x.1 ∧ x.1 ≠ root) ∧ f !! x.1 = Some x.2) as Hin.
  { intros [p info]. rewrite merge_sort_Permutation. unfold below.
    rewrite list_elem_of_filter. by rewrite elem_of_map_to_list. }
  split_and!.
  - rewrite fmap_cons. apply NoDup_cons. split.
    + intros ([p info] & Hp & [[_ Hne] _]%Hin)%list_elem_of_fmap.
      simpl in *. by subst.
    + rewrite merge_sort_Permutation.
      eapply sublist_NoDup; [apply (NoDup_fst_map_to_list f) |].
      unfold below. apply fmap_sublist, sublist_filter.
  - intros p info [[= -> ->] | [[Hp _] _]%Hin]%elem_of_cons; done.
  - intros p d [[=] | [_ Hp]%Hin]%elem_of_cons. done.
  - intros rel d Hfile. apply elem_of_cons. right. apply Hin. simpl.
    assert (root ++ rel ≠ root) as Hne.
    { intros Heq. rewrite Heq, Hroot in Hfile. done. }
    split_and!; [by apply prefix_app_r | done |].
    unfold os.Stat in Hfile. case_decide as Hnil; [done | done].
Qed.

(** The kernel's walk along a name ends where filepath.Clean says. *)
Lemma namei_resolve (f : FS) (segs : list string) :
  ∀ cur p, os.namei f cur segs = inr p → p = foldl filepath.step cur segs.
Proof.
  induction segs as [|seg rest IH]; intros cur p; simpl; [by intros [= <-]|].
  destruct (os.Stat f cur) as [[data|]|]; [done | apply IH | done].
Qed.

Lemma Lstat_found (f : FS) (name : string) (p : path) (info : node) :
  os.Lstat f (gostrings.Split name) = inr (p, info) →
  p = filepath.resolve name ∧ os.Stat f p = Some info.
Proof.
  unfold os.Lstat.
  destruct (os.namei f [] (gostrings.Split name)) as [e|p0] eqn:Hn; [done|].
  destruct (os.Stat f p0) as [info0|] eqn:Hs; [|done].
  intros [= <- <-]. split; [by apply namei_resolve in Hn | done].
Qed.

(** A copy that finds its source is the walk of it. *)
Lemma copyMountedServiceFiles_found (sourcePath : string) (dest source : path)
    (info : node) (w : World) :
  os.Lstat (fs w) (gostrings.Split sourcePath) = inr (source, info) →
  copyMountedServiceFiles sourcePath dest w
  = forEach (copyEntry source dest) (Walk (fs w) source) w.
Proof. unfold copyMountedServiceFiles. by intros ->. Qed.

(** A step of the copy that fails changes nothing. *)
Lemma copyEntry_Err (source dest : path) (entry : path * node) (w w1 : World) (e : error) :
  copyEntry source dest entry w = (Err e, w1) → w1 = w.
Proof.
  destruct entry as [p [d0|]]; simpl.
  - munfold. unfold ReadFile.
    destruct (os.ReadFile p (fs w)) as [data|]; [|by intros [= _ <-]].
    unfold WriteFile. destruct (os.WriteFile _ data (fs w)); [done | by intros [= _ <-]].
  - unfold MkdirAll. destruct (os.MkdirAll _ (fs w)); [done | by intros [= _ <-]].
Qed.

Lemma reached_prefix {A} (f : A → M unit) (l : list A) :
  ∀ w, reached f l w `prefix_of` l.
Proof.
  induction l as [|x l IH]; intros w; simpl; [done|].
  destruct (f x w) as [[[]|e] w1]; [by apply prefix_cons | apply prefix_nil].
Qed.

(** A walk that ends without an error handled every entry. *)
Lemma reached_all {A} (f : A → M unit) (l : list A) :
  ∀ w, (forEach f l w).1 = Ok tt → reached f l w = l.
Proof.
  induction l as [|x l IH]; intros w; simpl; [done|]. munfold.
  destruct (f x w) as [[[]|e] w1]; [|done].
  intros Hrest. f_equal. by apply IH.
Qed.

(** What the copy leaves is what the handled entries made of the world. *)
Lemma forEach_reached (source dest : path) (l : list (path * node)) :
  ∀ w, forEach (copyEntry source dest) (reached (copyEntry source dest) l w) w
       = (Ok tt, (forEach (copyEntry source dest) l w).2).
Proof.
  induction l as [|x l IH]; intros w; simpl; [done|]. munfold.
  destruct (copyEntry source dest x w) as [[[]|e] w1] eqn:Hstep; simpl.
  - munfold. rewrite Hstep. apply IH.
  - by apply copyEntry_Err in Hstep as ->.
Qed.

(** The copy and a file of the mounted directory: when the walk handled the
    file, it is in the destination at the same relative path with the
    mounted content; when the walk stopped before, the file that was there
    is as it was. *)
Lemma copy_reached (source dest rel : path) (d : string) (w : World) :
  let walk := Walk (fs w) source in
  let handled := reached (copyEntry source dest) walk w in
  let after := (forEach (copyEntry source dest) walk w).2 in
  (∀ p rel', source `prefix_of` p → p ≠ dest ++ rel') →
  os.Stat (fs w) source = Some Dir →
  os.Stat (fs w) (source ++ rel) = Some (File d) →
  ((source ++ rel, File d) ∈ handled → fs after !! (dest ++ rel) = Some (File d)) ∧
  (∀ r, (source ++ rel, File d) ∉ handled →
        fs w !! (dest ++ rel) = Some (File r) →
        fs after !! (dest ++ rel) = Some (File r)).
Proof.
  intros walk handled after Hapart Hdir Hfile.
  pose proof (forEach_reached source dest walk w) as Hrun.
  fold handled after in Hrun.
  destruct (Walk_Dir (fs w) source Hdir) as (Hnodup & Hbelow & Hfiles & _).
  fold walk in Hnodup, Hbelow, Hfiles.
  destruct (reached_prefix (copyEntry source dest) walk w) as [rest Hrest].
  fold handled in Hrest.
  assert (∀ x, x ∈ handled → x ∈ walk) as Hsub.
  { intros x Hx. rewrite Hrest. apply elem_of_app. by left. }
  split.
  - intros Hin.
    pose proof (forEach_copies source dest Hapart handled w after Hrun) as Hcopies.
    rewrite <- (Rel_app source rel) at 1. apply Hcopies; [| | | done].
    + rewrite Hrest, fmap_app in Hnodup. by apply NoDup_app in Hnodup as [? _].
    + intros p info Hp. eapply Hbelow. by apply Hsub.
    + intros p d' Hp. apply Hfiles. by apply Hsub.
  - intros r Hout Hthere.
    apply (forEach_keeps_files source dest handled _ r w after Hrun Hthere).
    intros p [d'|] Hp Hinfo Heq; [|done].
    apply app_inv_head in Heq.
    destruct (Hbelow _ _ (Hsub _ Hp)) as [k ->]. rewrite Rel_app in Heq. subst k.
    apply Hout.
    pose proof (Hfiles _ _ (Hsub _ Hp)) as Hlook.
    unfold os.Stat in Hfile. case_decide; [done|].
    rewrite Hlook in Hfile. by injection Hfile as ->.
Qed.

(** ** Start: mounted files win *)

Lemma Split_no_separator (s : string) :
  gostrings.ContainsByte s "/" = false → gostrings.Split s = [s].
Proof.
  induction s as [|a s IH]; simpl; [done|].
  intros [Ha Hs]%orb_false_elim. rewrite Ha, (IH Hs). done.
Qed.

Lemma step_keeps_head (x y : string) (acc : path) (seg : string) :
  ∃ k, filepath.step (x :: y :: acc) seg = x :: k.
Proof.
  unfold filepath.step. repeat case_decide; eauto.
Qed.

(** The directory mounted for a service is under /app, its workspace under
    /tmp. *)
Lemma mounted_apart (serviceName name : string) :
  gostrings.ContainsByte serviceName "/" = false →
  ∀ p rel,
    filepath.resolve ("/app/services/" +:+ serviceName) `prefix_of` p →
    p ≠ filepath.Join (os.TempDir ++ [name]) serviceName ++ rel.
Proof.
  intros Hsep p rel.
  unfold filepath.resolve, filepath.Join.
  change (gostrings.Split ("/app/services/" +:+ serviceName))
    with ("" :: "app" :: "services" :: gostrings.Split serviceName).
  rewrite (Split_no_separator _ Hsep).
  change (foldl filepath.step [] ["" ; "app"; "services"; serviceName])
    with (filepath.step ["app"; "services"] serviceName).
  change (foldl filepath.step (os.TempDir ++ [name]) [serviceName])
    with (filepath.step ["tmp"; name] serviceName).
  destruct (step_keeps_head "app" "services" [] serviceName) as [k ->].
  destruct (step_keeps_head "tmp" name [] serviceName) as [k' ->].
  intros [rest ->]. discriminate.
Qed.

(** C7, amended: a file of the directory mounted for the service, found
    where the code looks for it (the name /app/services/<service> as it is
    written), is what every compose step of the call finds at the same
    relative path of the workspace exactly when the copy handled it: the
    copy walks the mounted directory in lexical order and stops at its first
    error, which Start never sees.  A copy that ends without an error
    handled every file, whatever was downloaded there; a file the copy did
    not get to is found as it was downloaded.  (The pull step is taken to
    leave the file alone.) *)
Theorem mounted_file_wins (env : Env) (req : StartRequest.t) (w : World)
    (dir source rel : path) (n : nat) (d : string) :
  let mounted := "/app/services/" +:+ StartRequest.Service req in
  let fetched :=
    fetchServiceFiles env (StartRequest.Service req) (StartRequest.Ref req) w in
  let copied := copyMountedServiceFiles mounted dir fetched.2 in
  let handled :=
    reached (copyEntry source dir) (Walk (fs fetched.2) source) fetched.2 in
  validateStartRequest req = None →
  fetched.1 = Ok (dir, n) →
  os.Lstat (fs fetched.2) (gostrings.Split mounted) = inr (source, Dir) →
  os.Stat (fs fetched.2) (source ++ rel) = Some (File d) →
  (∀ f c, f !! (dir ++ rel) = Some (File c) →
          (Run env (compose dir ["pull"]) f).1 !! (dir ++ rel) = Some (File c)) →
  ∃ evs,
    trace (Start env req w).2 = trace w ++ evs ∧
    (Start env req w).1 = (deploy env dir copied.2).1 ∧
    (copied.1 = Ok tt → (source ++ rel, File d) ∈ handled) ∧
    ((source ++ rel, File d) ∈ handled → Forall (observes (dir ++ rel) d) evs) ∧
    (∀ r, (source ++ rel, File d) ∉ handled →
          fs fetched.2 !! (dir ++ rel) = Some (File r) →
          Forall (observes (dir ++ rel) r) evs).
Proof.
  intros mounted fetched copied handled. subst copied handled.
  destruct fetched as [r0 w1] eqn:Hfetch. cbn [fst snd].
  intros Hv -> Hfound Hfile Hpull.
  destruct (fetchServiceFiles_inv _ _ _ _ _ _ Hfetch)
    as [(e & ws & [=] & _) | (l & name & n' & _ & Hsep & [= -> ->] & Hw1)].
  set (dir := filepath.Join ["tmp"; name] (StartRequest.Service req)) in *.
  destruct (Lstat_found _ _ _ _ Hfound) as [Hsource Hdir].
  rewrite (copyMountedServiceFiles_found _ dir _ _ _ Hfound).
  set (walk := Walk (fs w1) source).
  destruct (copy_reached source dir rel d w1) as [Hwins Hloses]; [| done | done |].
  { rewrite Hsource. by apply (mounted_apart _ name). }
  fold walk in Hwins, Hloses.
  rewrite (Start_run _ _ _ _ _ _ Hv Hfetch). fold mounted.
  rewrite (copyMountedServiceFiles_found _ dir _ _ _ Hfound). fold walk.
  set (w2 := (forEach (copyEntry source dir) walk w1).2) in *.
  cbn [fst snd].
  destruct (deploy_trace env dir w2) as (steps & Hsteps & Hcases).
  assert (trace w2 = trace w1) as Hw2 by apply forEach_copy_trace.
  assert (∀ c, fs w2 !! (dir ++ rel) = Some (File c) →
            Forall (observes (dir ++ rel) c)
              (EvGetContents (gopath.Join "docker" (StartRequest.Service req))
                 (StartRequest.Ref req)
               :: EvMkdirTemp (os.TempDir ++ [name])
               :: (EvHttpGet <$> downloadable l) ++ steps)) as Hseen.
  { intros c Hc.
    apply Forall_cons. split; [done|]. apply Forall_cons. split; [done|].
    apply Forall_app. split; [by apply Forall_fmap, Forall_true|].
    destruct Hcases as [-> | [-> | ->]]; repeat constructor; simpl; auto. }
  eexists. split_and!.
  - unfold RemoveAll. cbn [trace setFs].
    etrans; [exact Hsteps|]. rewrite Hw2, Hw1.
    rewrite <- app_assoc. reflexivity.
  - done.
  - intros Hok. rewrite (reached_all _ _ _ Hok).
    destruct (Walk_Dir (fs w1) source Hdir) as (_ & _ & _ & Hvisit). by apply Hvisit.
  - intros Hin. by apply Hseen, Hwins.
  - intros r Hout Hthere. by apply Hseen, Hloses.
Qed.

Lemma mounted_file_wins_witness :
  let w := {| fs := Sample.hostWithOverride; trace := [] |} in
  let dir := ["tmp"; "coach-service-web-4242"; "web"] in
  let source := ["app"; "services"; "web"] in
  let rel := ["deploy.yaml"] in
  let fetched := fetchServiceFiles Sample.quiet "web" "main" w in
  let copied := copyMountedServiceFiles "/app/services/web" dir fetched.2 in
  let handled :=
    reached (copyEntry source dir) (Walk (fs fetched.2) source) fetched.2 in
  ∃ evs,
    trace (Start Sample.quiet Sample.startWeb w).2 = trace w ++ evs ∧
    (Start Sample.quiet Sample.startWeb w).1 = (deploy Sample.quiet dir copied.2).1 ∧
    (copied.1 = Ok tt → (source ++ rel, File "local") ∈ handled) ∧
    ((source ++ rel, File "local") ∈ handled →
     Forall (observes (dir ++ rel) "local") evs) ∧
    (∀ r, (source ++ rel, File "local") ∉ handled →
          fs fetched.2 !! (dir ++ rel) = Some (File r) →
          Forall (observes (dir ++ rel) r) evs).
Proof.
  intros w dir source rel.
  apply (mounted_file_wins Sample.quiet Sample.startWeb w dir source rel 2 "local").
  - reflexivity.
  - vm_compute. reflexivity.
  - vm_compute. reflexivity.
  - vm_compute. reflexivity.
  - intros f c Hf. exact Hf.
Defined.

Example override_sample :
  found ["tmp"; "coach-service-web-4242"; "web"; "deploy.yaml"]
    (trace (Start Sample.quiet Sample.startWeb
              {| fs := Sample.hostWithOverride; trace := [] |}).2)
  = [(["compose"; "-f"; "deploy.yaml"; "pull"], Some (File "local"));
     (["compose"; "-f"; "deploy.yaml"; "up"; "-d"], Some (File "local"))].
Proof. vm_compute. reflexivity. Qed.

(** C7 as stated fails: the mounted tree has a directory [a] where a file
    [a] was downloaded, the copy stops there with an error that is only
    logged, and the mounted deploy.yaml, which comes later in the walk, is
    never copied.  Both compose steps find the downloaded descriptor. *)
Lemma mounted_file_loses :
  let w := {| fs := Sample.hostWithClash; trace := [] |} in
  let after := Start Sample.quiet Sample.startWeb w in
  os.Stat (fs w) ["app"; "services"; "web"; "deploy.yaml"] = Some (File "local") ∧
  fetches (trace after.2)
    = ["https://raw.example/web/a"; "https://raw.example/web/deploy.yaml"] ∧
  after.1 = Ok mkStartResponse ∧
  found ["tmp"; "coach-service-web-4242"; "web"; "deploy.yaml"] (trace after.2)
    = [(["compose"; "-f"; "deploy.yaml"; "pull"], Some (File "remote"));
       (["compose"; "-f"; "deploy.yaml"; "up"; "-d"], Some (File "remote"))].
Proof. cbv zeta. split_and!; vm_compute; reflexivity. Qed.

(** There the copy stops at the directory [a], the first entry after the
    root, and the mounted descriptor is not among the entries it handled. *)
Example copy_stops_at_clash :
  let w := {| fs := Sample.hostWithClash; trace := [] |} in
  let dir := ["tmp"; "coach-service-web-4242"; "web"] in
  let source := ["app"; "services"; "web"] in
  let fetched := fetchServiceFiles Sample.quiet "web" "main" w in
  (copyMountedServiceFiles "/app/services/web" dir fetched.2).1
    = Err (errorString "mkdir /tmp/coach-service-web-4242/web/a: not a directory") ∧
  (Walk (fs fetched.2) source).*1
    = [source; source ++ ["a"]; source ++ ["a"; "x"]; source ++ ["deploy.yaml"]] ∧
  (reached (copyEntry source dir) (Walk (fs fetched.2) source) fetched.2).*1
    = [source] ∧
  fs fetched.2 !! (dir ++ ["deploy.yaml"]) = Some (File "remote").
Proof. cbv zeta. split_and!; vm_compute; reflexivity. Qed.

(** ** Start: what the cleanup removes *)

(** Whenever Start gets as far as its cleanup, the directory it created is
    [os.TempDir ++ [name]], and what the cleanup removes is the directory of
    the service joined to it. *)
Lemma Start_cleanup_target (env : Env) (req : StartRequest.t) (w : World)
    (dir : path) (n : nat) :
  let fetched :=
    fetchServiceFiles env (StartRequest.Service req) (StartRequest.Ref req) w in
  let copied :=
    copyMountedServiceFiles ("/app/services/" +:+ StartRequest.Service req)
      dir fetched.2 in
  validateStartRequest req = None →
  fetched.1 = Ok (dir, n) →
  ∃ name,
    workspaces (drop (length (trace w)) (trace fetched.2)) = [os.TempDir ++ [name]] ∧
    dir = filepath.Join (os.TempDir ++ [name]) (StartRequest.Service req) ∧
    fs (Start env req w).2 = os.RemoveAll dir (fs (deploy env dir copied.2).2).
Proof.
  intros fetched copied Hv. subst copied.
  destruct fetched as [r w1] eqn:Hfetch. cbn [fst snd]. intros ->.
  destruct (fetchServiceFiles_inv _ _ _ _ _ _ Hfetch)
    as [(e & ws & [=] & _) | (l & name & n' & _ & _ & [= -> ->] & Hw1)].
  exists name. split_and!; [| done |].
  - rewrite Hw1, drop_app_length. simpl.
    f_equal. clear. induction (downloadable l) as [|u us IH]; done.
  - by rewrite (Start_run _ _ _ _ _ _ Hv Hfetch).
Qed.

(** * More of the service *)

(** ** Plans *)

Lemma runAll_cons (env : Env) (msg : string) (c : Cmd) (rest : list (string * Cmd))
    (w : World) :
  let w1 := emit (EvExec c (fs w)) (setFs (Run env c (fs w)).1 w) in
  runAll env ((msg, c) :: rest) w
  = match (Run env c (fs w)).2 with
    | None => runAll env rest w1
    | Some m => (Err (wrapError msg (errorString m)), w1)
    end.
Proof.
  cbv zeta. cbn [runAll]. munfold. unfold runCmd.
  by destruct (Run env c (fs w)) as [f [m|]].
Qed.

Lemma planEvents_cons (env : Env) (msg : string) (c : Cmd)
    (rest : list (string * Cmd)) (f : FS) :
  planEvents env ((msg, c) :: rest) f
  = EvExec c f :: match (Run env c f).2 with
                  | None => planEvents env rest (Run env c f).1
                  | Some _ => []
                  end.
Proof. cbn [planEvents]. by destruct (Run env c f) as [f' [m|]]. Qed.

(** Running a plan records its events and nothing else. *)
Lemma runAll_trace (env : Env) (plan : list (string * Cmd)) :
  ∀ w, trace (runAll env plan w).2 = trace w ++ planEvents env plan (fs w).
Proof.
  induction plan as [|[msg c] rest IH]; intros w.
  { simpl. by rewrite app_nil_r. }
  rewrite runAll_cons, planEvents_cons.
  destruct (Run env c (fs w)) as [f [m|]]; cbn [fst snd].
  - done.
  - rewrite IH. cbn [trace fs emit setFs]. by rewrite <- app_assoc.
Qed.

Lemma planEvents_processes (env : Env) (plan : list (string * Cmd)) :
  ∀ f, processes (planEvents env plan f) `prefix_of` plan.*2.
Proof.
  induction plan as [|[msg c] rest IH]; intros f; [done|].
  rewrite planEvents_cons. cbn. apply prefix_cons.
  destruct ((Run env c f).2); [apply prefix_nil | apply IH].
Qed.

Lemma planEvents_quiet (env : Env) (plan : list (string * Cmd)) :
  ∀ f, workspaces (planEvents env plan f) = [] ∧
       listings (planEvents env plan f) = [] ∧
       fetches (planEvents env plan f) = [].
Proof.
  induction plan as [|[msg c] rest IH]; intros f; [done|].
  rewrite planEvents_cons. cbn.
  destruct ((Run env c f).2); [done | apply IH].
Qed.

(** A plan stops at the first process that fails. *)
Lemma planEvents_failed_last (env : Env) (plan : list (string * Cmd)) :
  ∀ f l1 ev l2,
    planEvents env plan f = l1 ++ ev :: l2 → failed env ev → l2 = [].
Proof.
  induction plan as [|[msg c] rest IH]; intros f l1 ev l2 Heq Hfailed.
  { by destruct l1. }
  rewrite planEvents_cons in Heq.
  destruct l1 as [|ev1 l1]; simplify_eq/=.
  - by destruct ((Run env c f).2).
  - destruct ((Run env c f).2); [by destruct l1 | eauto].
Qed.

Lemma runAll_Ok (env : Env) (plan : list (string * Cmd)) :
  ∀ w, (runAll env plan w).1 = Ok tt →
       processes (planEvents env plan (fs w)) = plan.*2 ∧
       Forall (λ ev, ¬ failed env ev) (planEvents env plan (fs w)).
Proof.
  induction plan as [|[msg c] rest IH]; intros w; [done|].
  rewrite runAll_cons, planEvents_cons.
  destruct ((Run env c (fs w)).2) eqn:Hrun; [done|].
  intros [Hp Hf]%IH. cbn [fs emit setFs] in Hp, Hf. split.
  - change (c :: processes (planEvents env rest (Run env c (fs w)).1) = c :: rest.*2).
    by f_equal.
  - constructor; [|done]. simpl. rewrite Hrun. by intros H.
Qed.

(** The error of a plan is the error of its last process, with the text of
    that step in front. *)
Lemma runAll_Err (env : Env) (plan : list (string * Cmd)) (e : error) :
  ∀ w, (runAll env plan w).1 = Err e →
       ∃ msg c seen m,
         (msg, c) ∈ plan ∧ e = wrapError msg (errorString m) ∧
         last (planEvents env plan (fs w)) = Some (EvExec c seen) ∧
         (Run env c seen).2 = Some m.
Proof.
  induction plan as [|[msg c] rest IH]; intros w; [done|].
  rewrite runAll_cons, planEvents_cons.
  destruct ((Run env c (fs w)).2) as [m|] eqn:Hrun.
  - intros [= <-]. exists msg, c, (fs w), m. split_and!; [by left | done | done | done].
  - intros (msg' & c' & seen & m & Hin & -> & Hlast & Hm)%IH.
    exists msg', c', seen, m. split_and!; [by right | done | | done].
    cbn [fs emit setFs] in Hlast.
    destruct (planEvents env rest (Run env c (fs w)).1); [done|].
    by rewrite last_cons, Hlast.
Qed.

(** ** Assemble as a plan *)

(** Assemble validates, creates the workspace, runs its plan in it, answers
    by the outcome of the plan and of the tag resolution, and removes the
    workspace. *)
Lemma Assemble_run (env : Env) (req : AssembleRequest.t) (w : World) :
  Assemble env req w
  = match validateAssembleRequest req with
    | Some e => (Err e, w)
    | None =>
        match MkdirTemp env ("coach-assemble-" +:+ AssembleRequest.Repo req +:+ "-") w with
        | (Err e, w1) => (Err (wrapError "failed to create temp directory: " e), w1)
        | (Ok tempDir, w1) =>
            let ran := runAll env (assemblePlan req tempDir) w1 in
            (match ran.1, getDockerTag req with
             | Err e, _ => Err e
             | Ok _, Err e => Err e
             | Ok _, Ok _ => Ok mkAssembleResponse
             end,
             RemoveAll tempDir ran.2)
        end
    end.
Proof.
  unfold Assemble.
  destruct (validateAssembleRequest req) as [e|]; munfold; [done|].
  destruct (MkdirTemp env _ w) as [[tempDir|e] w1]; [|done].
  unfold assemblePlan, cloneRepo, checkoutRef, buildDockerImage.
  fold (clone req tempDir). fold (checkout req tempDir).
  cbn [app]. rewrite runAll_cons. unfold runCmd at 1.
  destruct (Run env (clone req tempDir) (fs w1)) as [f1 [m1|]]; cbn [fst snd]; [done|].
  rewrite runAll_cons. unfold runCmd at 1. cbn [fs emit setFs].
  destruct (Run env (checkout req tempDir) f1) as [f2 [m2|]]; cbn [fst snd]; [done|].
  destruct (getDockerTag req) as [dockerTag|e]; [|done].
  fold (build req tempDir dockerTag).
  rewrite runAll_cons. unfold runCmd at 1. cbn [fs emit setFs].
  by destruct (Run env (build req tempDir dockerTag) f2) as [f3 [m3|]].
Qed.

Lemma Stat_Mkdir_fresh (p : path) (f f' : FS) :
  os.Mkdir p f = Some f' → os.Stat f p = None.
Proof. unfold os.Mkdir. by destruct (os.Stat f p). Qed.

Lemma planEvents_shape (env : Env) (plan : list (string * Cmd)) (f : FS) (ev : Event) :
  ev ∈ planEvents env plan f → ∃ c seen, ev = EvExec c seen.
Proof.
  revert f. induction plan as [|[msg c] rest IH]; intros f.
  { by intros ?%elem_of_nil. }
  rewrite planEvents_cons. intros [-> | Hin]%elem_of_cons; [eauto|].
  destruct ((Run env c f).2); [by apply elem_of_nil in Hin | eauto].
Qed.

Lemma workspaces_plan (env : Env) (d : path) (plan : list (string * Cmd)) (f : FS) :
  workspaces (EvMkdirTemp d :: planEvents env plan f) = [d].
Proof.
  change (d :: workspaces (planEvents env plan f) = [d]).
  by rewrite (proj1 (planEvents_quiet env plan f)).
Qed.

(** What an Assemble call that got its workspace did: it created the
    directory and ran its plan on the result. *)
Lemma Assemble_events (env : Env) (req : AssembleRequest.t) (w : World) :
  (∃ e, Assemble env req w = (Err e, w) ∧ status.Code e = codes.Unknown ∧
        (validateAssembleRequest req = None →
         gostrings.ContainsByte (AssembleRequest.Repo req) "/" = false →
         ∃ m, e = wrapError "failed to create temp directory: " (errorString m))) ∨
  (∃ name f,
     let tempDir := os.TempDir ++ [name] in
     let w1 := emit (EvMkdirTemp tempDir) (setFs f w) in
     let ran := runAll env (assemblePlan req tempDir) w1 in
     validateAssembleRequest req = None ∧
     gostrings.ContainsByte (AssembleRequest.Repo req) "/" = false ∧
     os.Mkdir tempDir (fs w) = Some f ∧
     Assemble env req w
     = (match ran.1, getDockerTag req with
        | Err e, _ => Err e
        | Ok _, Err e => Err e
        | Ok _, Ok _ => Ok mkAssembleResponse
        end,
        RemoveAll tempDir ran.2) ∧
     trace ran.2
     = trace w ++ EvMkdirTemp tempDir :: planEvents env (assemblePlan req tempDir) f).
Proof.
  rewrite Assemble_run.
  destruct (validateAssembleRequest req) as [e|] eqn:Hv.
  { left. exists e. split_and!; [done | | done].
    unfold validateAssembleRequest in Hv. repeat case_decide; by simplify_eq. }
  destruct (MkdirTemp env _ w) as [r w1] eqn:Hmk.
  destruct (MkdirTemp_inv _ _ _ _ _ Hmk)
    as [(m & -> & ->) | (name & f & -> & Hsep & Hf & ->)].
  { left. eexists. split_and!; [done | done | eauto]. }
  right. exists name, f. cbv zeta. split_and!; [done | | done | done |].
  - rewrite !ContainsByte_app in Hsep.
    destruct (gostrings.ContainsByte (AssembleRequest.Repo req) "/"); [|done].
    vm_compute in Hsep. discriminate.
  - rewrite runAll_trace. cbn [trace fs emit setFs]. by rewrite <- app_assoc.
Qed.

(** X1: when Assemble returns, with a response or with an error, the
    directory it created as its workspace is gone, and so is everything
    below it (the clone, what the build left). *)
Theorem Assemble_leaves_no_workspace (env : Env) (req : AssembleRequest.t) (w : World) :
  ∃ evs,
    trace (Assemble env req w).2 = trace w ++ evs ∧
    ∀ d q, d ∈ workspaces evs → d `prefix_of` q →
           os.Stat (fs (Assemble env req w).2) q = None.
Proof.
  destruct (Assemble_events env req w)
    as [(e & -> & _) | (name & f & _ & _ & _ & -> & Htrace)].
  - exists []. split; [by rewrite app_nil_r|]. by intros d q ?%elem_of_nil.
  - eexists. split; [exact Htrace|].
    intros d q Hd Hq. cbn [snd RemoveAll fs setFs].
    rewrite workspaces_plan in Hd. apply list_elem_of_singleton in Hd as ->.
    by apply Stat_RemoveAll.
Qed.

(** X2: the processes of an Assemble call are, in this order, git clone,
    git checkout in the clone and docker build in the clone, or a beginning
    of that list; nothing else is ever started, and nothing at all without a
    workspace.  A call that answers with a response created its workspace
    and ran all three, and the build pushed the image under the resolved
    tag, with the Dockerfile and the context of the request or their
    defaults. *)
Theorem Assemble_pipeline (env : Env) (req : AssembleRequest.t) (w : World) :
  ∃ evs,
    trace (Assemble env req w).2 = trace w ++ evs ∧
    match workspaces evs with
    | [] => processes evs = []
    | tempDir :: _ => processes evs `prefix_of` (assemblePlan req tempDir).*2
    end ∧
    ((Assemble env req w).1 = Ok mkAssembleResponse →
     ∃ tempDir dockerTag,
       workspaces evs = [tempDir] ∧
       getDockerTag req = Ok dockerTag ∧
       processes evs
       = [clone req tempDir; checkout req tempDir; build req tempDir dockerTag]).
Proof.
  destruct (Assemble_events env req w)
    as [(e & -> & _) | (name & f & _ & _ & _ & -> & Htrace)].
  - exists []. split_and!; [by rewrite app_nil_r | done | done].
  - eexists. split; [exact Htrace|].
    set (tempDir := os.TempDir ++ [name]).
    set (w1 := emit (EvMkdirTemp tempDir) (setFs f w)).
    rewrite workspaces_plan.
    change (processes (EvMkdirTemp tempDir :: planEvents env (assemblePlan req tempDir) f))
      with (processes (planEvents env (assemblePlan req tempDir) f)).
    split; [apply planEvents_processes|]. cbn [fst].
    destruct (runAll env (assemblePlan req tempDir) w1).1 as [[]|e] eqn:Hran; [|done].
    destruct (getDockerTag req) as [dockerTag|e] eqn:Htag; [|done].
    intros _. exists tempDir, dockerTag. split_and!; [done | done |].
    apply runAll_Ok in Hran as [Hp _]. cbn [fs emit setFs w1] in Hp.
    rewrite Hp. unfold assemblePlan. by rewrite Htag.
Qed.

(** X3: a repository name with a slash cannot be assembled: the name goes
    into the pattern of the temporary directory, which must not contain a
    separator, so the call fails with "failed to create temp directory"
    before anything is created or started. *)
Theorem Assemble_rejects_separator (env : Env) (req : AssembleRequest.t) (w : World) :
  validateAssembleRequest req = None →
  gostrings.ContainsByte (AssembleRequest.Repo req) "/" = true →
  ∃ m, Assemble env req w
       = (Err (wrapError "failed to create temp directory: " (errorString m)), w).
Proof.
  intros Hv Hsep. rewrite Assemble_run, Hv. unfold MkdirTemp.
  rewrite !ContainsByte_app, Hsep, orb_true_r. simpl. eauto.
Qed.

Lemma Assemble_rejects_separator_witness :
  ∃ m, Assemble Sample.quiet
         {| AssembleRequest.Repo := "baely/blog";
            AssembleRequest.Ref := "main";
            AssembleRequest.DockerfileLocation := None;
            AssembleRequest.ContextLocation := None;
            AssembleRequest.Image := "blog";
            AssembleRequest.Tag := AssembleRequest_TAG_LATEST |} Sample.start
       = (Err (wrapError "failed to create temp directory: " (errorString m)),
          Sample.start).
Proof.
  apply Assemble_rejects_separator.
  - reflexivity.
  - reflexivity.
Defined.

(** ** Directories stay directories *)

Lemma Stat_MkdirAll (p : path) (f f' : FS) :
  os.MkdirAll p f = Some f' → os.Stat f' p = Some Dir.
Proof.
  unfold os.MkdirAll. destruct (forallb _ _); [|done]. intros [= <-].
  unfold os.Stat. case_decide as Hnil; [done|].
  rewrite lookup_mkdirs. rewrite decide_True; [done|].
  clear -Hnil. assert (∀ base, p ≠ [] → base ++ p ∈ os.prefixes base p) as Hlast.
  { induction p as [|x p IH]; intros base Hp; [done|]. simpl.
    destruct p as [|y p]; [by left|].
    right. rewrite (cons_middle x base), app_assoc. by apply IH. }
  by apply (Hlast []).
Qed.

Lemma WriteFile_not_Dir (p : path) (data : string) (f f' : FS) :
  os.WriteFile p data f = Some f' → os.Stat f p ≠ Some Dir.
Proof. unfold os.WriteFile. by destruct (os.Stat f p) as [[?|]|]. Qed.

Lemma WriteFile_keepsDirs (p : path) (data : string) (f f' : FS) :
  os.WriteFile p data f = Some f' → keepsDirs f f'.
Proof.
  intros Hwrite q Hq.
  pose proof (WriteFile_not_Dir _ _ _ _ Hwrite) as Hnot.
  apply WriteFile_inv in Hwrite as ->.
  destruct (decide (p = q)) as [-> | Hne]; [done|].
  unfold os.Stat in *. case_decide; [done|]. by rewrite lookup_insert_ne.
Qed.

Lemma MkdirAll_keepsDirs (p : path) (f f' : FS) :
  os.MkdirAll p f = Some f' → keepsDirs f f'.
Proof.
  unfold os.MkdirAll. destruct (forallb _ _); [|done]. intros [= <-] q Hq.
  unfold os.Stat in *. case_decide; [done|].
  rewrite lookup_mkdirs. by case_decide.
Qed.

(** No step of the copy replaces a directory, whether it ends well or not. *)
Lemma copyEntry_keepsDirs (source dest : path) (entry : path * node) (w : World) :
  keepsDirs (fs w) (fs (copyEntry source dest entry w).2).
Proof.
  destruct entry as [p [d0|]]; simpl.
  - munfold. unfold ReadFile.
    destruct (os.ReadFile p (fs w)) as [data|]; [|by intros q].
    unfold WriteFile.
    destruct (os.WriteFile _ data (fs w)) as [f'|] eqn:Hwrite; [|by intros q].
    by eapply WriteFile_keepsDirs.
  - unfold MkdirAll. destruct (os.MkdirAll _ (fs w)) as [f'|] eqn:Hmk; [|by intros q].
    by eapply MkdirAll_keepsDirs.
Qed.

Lemma forEach_keepsDirs (source dest : path) (l : list (path * node)) :
  ∀ w, keepsDirs (fs w) (fs (forEach (copyEntry source dest) l w).2).
Proof.
  induction l as [|entry l IH]; intros w; simpl; [by intros q|]. munfold.
  pose proof (copyEntry_keepsDirs source dest entry w) as Hstep.
  destruct (copyEntry source dest entry w) as [[[]|e] w1]; simpl in Hstep; [|done].
  intros q Hq. by apply IH, Hstep.
Qed.

Lemma copyMountedServiceFiles_keepsDirs (sourcePath : string) (dest : path) (w : World) :
  keepsDirs (fs w) (fs (copyMountedServiceFiles sourcePath dest w).2).
Proof.
  unfold copyMountedServiceFiles.
  destruct (os.Lstat (fs w) (gostrings.Split sourcePath)) as [[]|[source info]];
    cbn [os.IsNotExist]; [by intros q | by intros q |].
  apply forEach_keepsDirs.
Qed.

Lemma downloadFileToPath_keepsDirs (env : Env) (url : string) (p : path) (w : World) :
  keepsDirs (fs w) (fs (downloadFileToPath env url p w).2).
Proof.
  unfold downloadFileToPath.
  destruct (Get env url) as [msg | code [b | msg | c msg]]; try (by intros q);
    case_decide; try (by intros q).
  unfold WriteFile. cbn [fs emit].
  destruct (os.WriteFile p b (fs w)) as [f'|] eqn:Hwrite; [|by intros q].
  by eapply WriteFile_keepsDirs.
Qed.

Lemma downloadAll_keepsDirs (env : Env) (dir : path) (l : list RepositoryContent) :
  ∀ n w, keepsDirs (fs w) (fs (downloadAll env dir l n w).2).
Proof.
  induction l as [|content rest IH]; intros n w; simpl; [by intros q|].
  case_decide; [apply IH|]. munfold.
  pose proof (downloadFileToPath_keepsDirs env (GetDownloadURL content)
                (filepath.Join dir (GetName content)) w) as Hstep.
  destruct (downloadFileToPath env _ _ w) as [[[]|e] w1]; simpl in Hstep;
    intros q Hq; by apply IH, Hstep.
Qed.

Lemma isDirectory_keeps (f f' : FS) (dir : path) :
  keepsDirs f f' → isDirectory f dir → isDirectory f' dir.
Proof. intros Hk [Hp Hd]. split; [done|]. intros q Hq. by apply Hk, Hd. Qed.

Lemma prefix_in_prefixes (p : path) :
  ∀ base q, q `prefix_of` p → q ≠ [] → base ++ q ∈ os.prefixes base p.
Proof.
  induction p as [|x p IH]; intros base q [k Hk] Hq.
  { by destruct q. }
  destruct q as [|y q]; [done|]. injection Hk as -> ->. simpl.
  destruct q as [|z q]; [by left|].
  right. rewrite (cons_middle y base), app_assoc.
  apply IH; [by eexists | done].
Qed.

(** What MkdirAll made is a directory with directories above it. *)
Lemma MkdirAll_isDirectory (p : path) (f f' : FS) :
  Forall plain p → os.MkdirAll p f = Some f' → isDirectory f' p.
Proof.
  intros Hp Hmk. split; [done|]. intros q Hq.
  unfold os.MkdirAll in Hmk. destruct (forallb _ _); [|done]. injection Hmk as <-.
  unfold os.Stat. case_decide; [done|].
  rewrite lookup_mkdirs, decide_True; [done|].
  by apply (prefix_in_prefixes p []).
Qed.

Lemma step_plain (acc : path) (seg : string) :
  Forall plain acc → Forall plain (filepath.step acc seg).
Proof.
  intros Hacc. unfold filepath.step.
  case_decide as H1; [done|]. case_decide as H2.
  - destruct acc as [|x acc _] using rev_ind; [done|].
    rewrite removelast_last. by apply Forall_app in Hacc as [? _].
  - apply Forall_app. split; [done|]. constructor; [|done].
    unfold plain. naive_solver.
Qed.

Lemma Join_plain (name : string) :
  ∀ dir, Forall plain dir → Forall plain (filepath.Join dir name).
Proof.
  unfold filepath.Join.
  induction (gostrings.Split name) as [|seg segs IH]; intros dir Hdir; simpl; [done|].
  by apply IH, step_plain.
Qed.

(** The name of a temporary directory begins like its pattern. *)
Lemma MkdirTemp_head (env : Env) (a : ascii) (p : string) (w : World)
    (d : path) (w1 : World) :
  MkdirTemp env (String a p) w = (Ok d, w1) → a ≠ "*"%char →
  ∃ rest, d = os.TempDir ++ [String a rest].
Proof.
  unfold MkdirTemp. destruct (gostrings.ContainsByte _ _); [done|].
  cbn [gostrings.cutLast]. destruct (gostrings.cutLast p "*") as [[pre suf]|].
  - destruct (os.Mkdir _ _); [|done]. intros [= <- _] _. by eexists.
  - intros Hmk Ha. rewrite (proj2 (Ascii.eqb_neq a "*") Ha) in Hmk.
    destruct (os.Mkdir _ _); [|done]. injection Hmk as <- _. by eexists.
Qed.

(** Along plain components the kernel's walk needs every directory on the
    way, and ends at the name itself. *)
Lemma namei_plain (f : FS) (segs : list string) :
  ∀ cur, Forall plain segs →
         (∀ k, k `prefix_of` segs → k ≠ segs → os.Stat f (cur ++ k) = Some Dir) →
         os.namei f cur segs = inr (cur ++ segs).
Proof.
  induction segs as [|seg rest IH]; intros cur Hplain Hdirs; simpl.
  { by rewrite app_nil_r. }
  apply Forall_cons in Hplain as [(H1 & H2 & H3) Hrest].
  pose proof (Hdirs [] (prefix_nil _) ltac:(done)) as Hcur.
  rewrite app_nil_r in Hcur. rewrite Hcur.
  unfold filepath.step. rewrite decide_False by (by intros [?|?]).
  rewrite decide_False by done.
  rewrite (IH (cur ++ [seg]) Hrest).
  - by rewrite <- app_assoc.
  - intros k Hk Hne. rewrite <- app_assoc.
    apply (Hdirs (seg :: k)); [by apply prefix_cons | congruence].
Qed.

(** Below a directory the lookup of a name fails only when the name is
    missing. *)
Lemma Lstat_below (f : FS) (dir : path) (x : string) :
  isDirectory f dir → plain x →
  os.Lstat f (dir ++ [x])
  = match os.Stat f (dir ++ [x]) with
    | Some info => inr (dir ++ [x], info)
    | None => inl os.ENOENT
    end.
Proof.
  intros [Hplain Hdirs] Hx. unfold os.Lstat.
  rewrite namei_plain; [done | apply Forall_app; split; [done | by constructor] |].
  intros k [r Hk] Hne. simpl. apply Hdirs.
  destruct r as [|y r _] using rev_ind.
  { by rewrite app_nil_r in Hk. }
  rewrite app_assoc in Hk. apply app_inj_tail in Hk as [-> _]. by eexists.
Qed.

(** ** Start as a plan *)

(** In a directory the kernel finds, the steps under the cleanup look for
    the descriptor and run the plan. *)
Lemma deploy_run (env : Env) (dir : path) (w : World) :
  isDirectory (fs w) dir →
  deploy env dir w
  = match os.Stat (fs w) (filepath.Join dir "deploy.yaml") with
    | None => (Err (errorString "deploy.yaml not found in service directory"), w)
    | Some _ =>
        let ran := runAll env (composePlan dir) w in
        (match ran.1 with Ok _ => Ok mkStartResponse | Err e => Err e end, ran.2)
    end.
Proof.
  intros Hdir. unfold deploy, validateDeployFile. munfold.
  change (filepath.Join dir "deploy.yaml") with (dir ++ ["deploy.yaml"]).
  rewrite (Lstat_below _ _ _ Hdir) by (by unfold plain).
  destruct (os.Stat (fs w) (dir ++ ["deploy.yaml"])); cbn [os.IsNotExist]; [|done].
  unfold composePlan, runDockerCompose.
  fold (compose dir ["pull"]). fold (compose dir ["up"; "-d"]).
  rewrite runAll_cons. unfold runCmd at 1.
  destruct (Run env (compose dir ["pull"]) (fs w)) as [f1 [m1|]]; cbn [fst snd]; [done|].
  rewrite runAll_cons. unfold runCmd at 1. cbn [fs emit setFs].
  by destruct (Run env (compose dir ["up"; "-d"]) f1) as [f2 [m2|]].
Qed.

(** The ways fetchServiceFiles ends: before a workspace exists, after the
    workspace was created but not its subdirectory, or with the subdirectory
    and the downloads.  Only the listing can fail with the error of a done
    context. *)
Lemma fetchServiceFiles_cases (env : Env) (serviceName ref : string) (w : World) :
  let servicePath := gopath.Join "docker" serviceName in
  let w0 := emit (EvGetContents servicePath ref) w in
  let fetched := fetchServiceFiles env serviceName ref w in
  (∃ e, fetched = (Err e, w0) ∧
        (status.Code e = codes.Unknown ∨
         ∃ c msg, GetContents env "baely" "infra" servicePath ref = Interrupted c msg ∧
                  status.Code e = status.Code (contextError c msg))) ∨
  (∃ name f l,
     let tempDir := os.TempDir ++ [name] in
     let dir := filepath.Join tempDir serviceName in
     let w1 := emit (EvMkdirTemp tempDir) (setFs f w0) in
     GetContents env "baely" "infra" servicePath ref = Done l ∧
     gostrings.ContainsByte serviceName "/" = false ∧
     os.Mkdir tempDir (fs w) = Some f ∧
     ((os.MkdirAll dir f = None ∧
       ∃ e, fetched = (Err e, w1) ∧ status.Code e = codes.Unknown) ∨
      (∃ f' n, os.MkdirAll dir f = Some f' ∧
               fetched.1 = Ok (dir, n) ∧
               fetched.2 = (downloadAll env dir l 0 (setFs f' w1)).2 ∧
               isDirectory (fs fetched.2) dir ∧
               trace fetched.2
               = trace w ++ EvGetContents servicePath ref :: EvMkdirTemp tempDir
                   :: (EvHttpGet <$> downloadable l)))).
Proof.
  intros servicePath w0 fetched. subst fetched.
  unfold fetchServiceFiles, getContents. fold servicePath. munfold. fold w0.
  destruct (GetContents env "baely" "infra" servicePath ref) as [l | msg | c msg].
  2:{ left. eauto. }
  2:{ left. eauto 10. }
  case_decide as Hl.
  { left. eauto. }
  destruct (MkdirTemp env _ w0) as [r w1] eqn:Hmk.
  destruct (MkdirTemp_inv _ _ _ _ _ Hmk)
    as [(e & -> & ->) | (name & f & -> & Hsep & Hf & ->)].
  { left. eauto. }
  right. exists name, f, l. cbv zeta. split_and!; [done | | done |].
  { rewrite !ContainsByte_app in Hsep.
    destruct (gostrings.ContainsByte serviceName "/"); [|done].
    vm_compute in Hsep. discriminate. }
  unfold MkdirAll. cbn [fs setFs emit].
  destruct (os.MkdirAll _ f) as [f'|] eqn:Hf'; [|left; eauto].
  right. exists f'.
  match goal with |- context [downloadAll env ?d l 0 ?w2] =>
    destruct (downloadAll_spec env d l 0 w2) as (n & w' & Hdl & Htrace);
    pose proof (downloadAll_keepsDirs env d l 0 w2) as Hkeeps end.
  exists n. rewrite Hdl in Hkeeps |- *. split_and!; [done | done | done | |].
  - cbn [snd fs setFs emit] in Hkeeps |- *.
    apply (isDirectory_keeps _ _ _ Hkeeps), (MkdirAll_isDirectory _ f); [|done].
    apply Join_plain.
    destruct (MkdirTemp_head env "c" ("oach-service-" +:+ serviceName +:+ "-")
                w0 _ _ Hmk) as [rest Hname]; [done|].
    apply app_inv_head in Hname. injection Hname as ->.
    repeat constructor; by unfold plain.
  - cbn [snd]. rewrite Htrace. cbn [trace setFs emit w0]. by rewrite <- !app_assoc.
Qed.

Lemma Start_after_download (env : Env) (req : StartRequest.t) (w : World) :
  let downloaded :=
    downloadServiceConfig env (StartRequest.Service req) (StartRequest.Ref req) w in
  validateStartRequest req = None →
  Start env req w
  = match downloaded.1 with
    | Err e => (Err (wrapError "failed to download service config: " e), downloaded.2)
    | Ok dir => ((deploy env dir downloaded.2).1,
                 RemoveAll dir (deploy env dir downloaded.2).2)
    end.
Proof.
  intros downloaded Hv. subst downloaded. unfold Start. rewrite Hv. munfold.
  destruct (downloadServiceConfig env _ _ w) as [[dir|e] w2]; cbn [fst snd]; [|done].
  by destruct (deploy env dir w2).
Qed.

(** What a Start call with a valid request did. *)
Lemma Start_events (env : Env) (req : StartRequest.t) (w : World) :
  let serviceName := StartRequest.Service req in
  let servicePath := gopath.Join "docker" serviceName in
  let listed := EvGetContents servicePath (StartRequest.Ref req) in
  let after := Start env req w in
  validateStartRequest req = None →
  (∃ e, after.1 = Err e ∧
        (status.Code e = codes.Unknown ∨
         ∃ c msg, GetContents env "baely" "infra" servicePath (StartRequest.Ref req)
                    = Interrupted c msg ∧
                  status.Code e = status.Code (contextError c msg)) ∧
        fs after.2 = fs w ∧ trace after.2 = trace w ++ [listed]) ∨
  (∃ name f l,
     let tempDir := os.TempDir ++ [name] in
     let dir := filepath.Join tempDir serviceName in
     GetContents env "baely" "infra" servicePath (StartRequest.Ref req) = Done l ∧
     gostrings.ContainsByte serviceName "/" = false ∧
     os.Mkdir tempDir (fs w) = Some f ∧
     ((os.MkdirAll dir f = None ∧
       ∃ e, after.1 = Err e ∧ status.Code e = codes.Unknown ∧
            fs after.2 = f ∧
            trace after.2 = trace w ++ [listed; EvMkdirTemp tempDir]) ∨
      (∃ n,
         let fetched := fetchServiceFiles env serviceName (StartRequest.Ref req) w in
         let w2 := (copyMountedServiceFiles ("/app/services/" +:+ serviceName)
                      dir fetched.2).2 in
         fetched.1 = Ok (dir, n) ∧
         after = ((deploy env dir w2).1, RemoveAll dir (deploy env dir w2).2) ∧
         trace w2 = trace w ++ listed :: EvMkdirTemp tempDir
                      :: (EvHttpGet <$> downloadable l) ∧
         isDirectory (fs w2) dir ∧
         trace (deploy env dir w2).2
         = trace w2 ++
           match os.Stat (fs w2) (filepath.Join dir "deploy.yaml") with
           | None => []
           | Some _ => planEvents env (composePlan dir) (fs w2)
           end))).
Proof.
  intros serviceName servicePath listed after Hv. subst after.
  destruct (fetchServiceFiles_cases env serviceName (StartRequest.Ref req) w)
    as [(e & Hfetch & He) |
        (name & f & l & Hl & Hsep & Hf &
         [(Hmk & e & Hfetch & He) | (f' & n & Hmk & Hok & Hw & Hready & Htrace)])];
    fold servicePath in Hfetch || fold servicePath in Htrace.
  - left. exists (wrapError "failed to download service config: " e).
    unfold Start, downloadServiceConfig. rewrite Hv. munfold.
    fold serviceName. rewrite Hfetch. done.
  - right. exists name, f, l. cbv zeta. split_and!; [done | done | done |].
    left. split; [done|].
    exists (wrapError "failed to download service config: " e).
    unfold Start, downloadServiceConfig. rewrite Hv. munfold.
    fold serviceName. rewrite Hfetch. cbn [fst snd]. split_and!; [done | done | done |].
    cbn [trace emit setFs]. by rewrite <- app_assoc.
  - right. exists name, f, l. cbv zeta. split_and!; [done | done | done |].
    right. exists n. split; [done|].
    destruct (fetchServiceFiles env serviceName (StartRequest.Ref req) w)
      as [r w1] eqn:Hfetch.
    cbn [fst snd] in *. subst r.
    assert (isDirectory
              (fs (copyMountedServiceFiles ("/app/services/" +:+ serviceName)
                     (filepath.Join (os.TempDir ++ [name]) serviceName) w1).2)
              (filepath.Join (os.TempDir ++ [name]) serviceName)) as Hready2.
    { eapply isDirectory_keeps; [apply copyMountedServiceFiles_keepsDirs | done]. }
    split_and!.
    + by rewrite (Start_run _ _ _ _ _ _ Hv Hfetch).
    + rewrite copyMountedServiceFiles_trace. exact Htrace.
    + done.
    + rewrite (deploy_run _ _ _ Hready2).
      destruct (os.Stat _ _); cbn [snd]; [apply runAll_trace | by rewrite app_nil_r].
Qed.

Lemma processes_gets (urls : list string) : processes (EvHttpGet <$> urls) = [].
Proof. by induction urls. Qed.

Lemma workspaces_gets (urls : list string) : workspaces (EvHttpGet <$> urls) = [].
Proof. by induction urls. Qed.

Lemma processes_app (t1 t2 : list Event) :
  processes (t1 ++ t2) = processes t1 ++ processes t2.
Proof. apply omap_app. Qed.

Lemma workspaces_app (t1 t2 : list Event) :
  workspaces (t1 ++ t2) = workspaces t1 ++ workspaces t2.
Proof. apply omap_app. Qed.

(** X4: the processes of a Start call are docker compose pull and docker
    compose up -d on deploy.yaml, in this order and in the directory of the
    service inside the workspace, or a beginning of that list, and nothing
    at all without a workspace; a call that answers with a response created
    its workspace and ran both. *)
Theorem Start_pipeline (env : Env) (req : StartRequest.t) (w : World) :
  ∃ evs,
    trace (Start env req w).2 = trace w ++ evs ∧
    match workspaces evs with
    | [] => processes evs = []
    | tempDir :: _ =>
        let dir := filepath.Join tempDir (StartRequest.Service req) in
        processes evs `prefix_of` [compose dir ["pull"]; compose dir ["up"; "-d"]]
    end ∧
    ((Start env req w).1 = Ok mkStartResponse →
     ∃ tempDir,
       let dir := filepath.Join tempDir (StartRequest.Service req) in
       workspaces evs = [tempDir] ∧
       processes evs = [compose dir ["pull"]; compose dir ["up"; "-d"]]).
Proof.
  destruct (validateStartRequest req) as [e|] eqn:Hv.
  { exists []. unfold Start. rewrite Hv. munfold.
    split_and!; [by rewrite app_nil_r | done | done]. }
  destruct (Start_events env req w Hv)
    as [(e & He & _ & _ & Ht) |
        (name & f & l & _ & _ & _ &
         [(_ & e & He & _ & _ & Ht) | (n & _ & Hafter & Hw2 & Hready & Hdeploy)])].
  - eexists. split_and!; [exact Ht | done | by rewrite He].
  - eexists. split_and!; [exact Ht | apply prefix_nil | by rewrite He].
  - rewrite Hafter. cbn [fst snd RemoveAll trace setFs].
    set (dir := filepath.Join (os.TempDir ++ [name]) (StartRequest.Service req)) in *.
    set (w2 := (copyMountedServiceFiles _ dir _).2) in *.
    eexists. split.
    { rewrite Hdeploy, Hw2. rewrite <- app_assoc. reflexivity. }
    rewrite <- !app_comm_cons.
    change (workspaces (?a :: EvMkdirTemp ?d :: ?t)) with (d :: workspaces t).
    cbv zeta. fold dir.
    change (processes (?a :: EvMkdirTemp ?d :: ?t)) with (processes t).
    rewrite workspaces_app, workspaces_gets, app_nil_l.
    rewrite processes_app, processes_gets, app_nil_l.
    rewrite (deploy_run _ _ _ Hready).
    destruct (os.Stat (fs w2) (filepath.Join dir "deploy.yaml")).
    + split; [apply (planEvents_processes env (composePlan dir))|].
      cbn [fst]. destruct (runAll env (composePlan dir) w2).1 as [[]|e] eqn:Hran; [|done].
      intros _. exists (os.TempDir ++ [name]). fold dir.
      rewrite (proj1 (planEvents_quiet _ _ _)).
      split; [done|]. by apply runAll_Ok in Hran as [-> _].
    + split; [apply prefix_nil | done].
Qed.

Lemma downloadServiceConfig_run (env : Env) (serviceName ref : string) (w : World)
    (dir : path) (n : nat) :
  let fetched := fetchServiceFiles env serviceName ref w in
  fetched.1 = Ok (dir, n) →
  downloadServiceConfig env serviceName ref w
  = (Ok dir, (copyMountedServiceFiles ("/app/services/" +:+ serviceName) dir fetched.2).2).
Proof.
  cbv zeta. unfold downloadServiceConfig. munfold.
  destruct (fetchServiceFiles env serviceName ref w) as [r w1]. cbn [fst snd].
  intros ->. by destruct (copyMountedServiceFiles _ dir w1) as [[[]|e] w2].
Qed.

Lemma downloadServiceConfig_Ok (env : Env) (serviceName ref : string) (w : World)
    (dir : path) :
  (downloadServiceConfig env serviceName ref w).1 = Ok dir →
  ∃ n, (fetchServiceFiles env serviceName ref w).1 = Ok (dir, n).
Proof.
  unfold downloadServiceConfig. munfold.
  destruct (fetchServiceFiles env serviceName ref w) as [[[dir' n]|e] w1]; [|done].
  destruct (copyMountedServiceFiles _ dir' w1) as [[[]|e] w2];
    intros [= ->]; eauto.
Qed.

(** X5: without a deploy.yaml in the directory of the service, after the
    downloads and the copy of the mounted files, Start fails with
    "deploy.yaml not found in service directory" and starts no process,
    whatever else was downloaded. *)
Theorem Start_without_descriptor (env : Env) (req : StartRequest.t) (w : World)
    (dir : path) :
  let downloaded :=
    downloadServiceConfig env (StartRequest.Service req) (StartRequest.Ref req) w in
  validateStartRequest req = None →
  downloaded.1 = Ok dir →
  os.Stat (fs downloaded.2) (filepath.Join dir "deploy.yaml") = None →
  (Start env req w).1 = Err (errorString "deploy.yaml not found in service directory") ∧
  processes (trace (Start env req w).2) = processes (trace w).
Proof.
  intros downloaded Hv Hok Hstat.
  rewrite (Start_after_download env req w Hv). fold downloaded. rewrite Hok.
  destruct (downloadServiceConfig_Ok _ _ _ _ _ Hok) as [n Hn].
  subst downloaded. rewrite (downloadServiceConfig_run _ _ _ _ _ _ Hn) in Hstat |- *.
  cbn [snd] in Hstat |- *.
  destruct (fetchServiceFiles_cases env (StartRequest.Service req) (StartRequest.Ref req) w)
    as [(e & Hfetch & _) |
        (name & f & l & _ & _ & _ &
         [(_ & e & Hfetch & _) | (f' & n' & _ & Hn' & _ & Hready & Htrace)])].
  - by rewrite Hfetch in Hn.
  - by rewrite Hfetch in Hn.
  - rewrite Hn in Hn'. injection Hn' as Hdir _.
    rewrite deploy_run, Hstat.
    2:{ eapply isDirectory_keeps; [apply copyMountedServiceFiles_keepsDirs|].
        by rewrite Hdir. }
    cbn [fst snd RemoveAll trace setFs]. split; [done|].
    rewrite copyMountedServiceFiles_trace.
    rewrite Htrace, processes_app.
    change (processes (?a :: EvMkdirTemp ?d :: ?t)) with (processes t).
    by rewrite processes_gets, app_nil_r.
Qed.

Lemma Start_without_descriptor_witness :
  (Start Sample.unreachable Sample.startWeb Sample.start).1
    = Err (errorString "deploy.yaml not found in service directory") ∧
  processes (trace (Start Sample.unreachable Sample.startWeb Sample.start).2)
    = processes (trace Sample.start).
Proof.
  apply (Start_without_descriptor Sample.unreachable Sample.startWeb Sample.start
           ["tmp"; "coach-service-web-4242"; "web"]).
  - reflexivity.
  - vm_compute. reflexivity.
  - vm_compute. reflexivity.
Defined.

(** The descriptor is only looked for: a lookup that fails for another
    reason than a missing name passes.  In Start the directory was just
    made, so this does not happen there. *)
Example validateDeployFile_not_a_directory :
  let w := {| fs := <[ ["work"] := File "x" ]> Sample.host; trace := [] |} in
  os.Stat (fs w) ["work"; "deploy.yaml"] = None ∧
  os.Lstat (fs w) ["work"; "deploy.yaml"] = inl os.ENOTDIR ∧
  (validateDeployFile ["work"] w).1 = Ok tt.
Proof. cbv zeta. split_and!; vm_compute; reflexivity. Qed.

(** ** Every call *)

Lemma handle_Assemble (env : Env) (req : AssembleRequest.t) (w : World) :
  handle env (AssembleCall req) w
  = (match (Assemble env req w).1 with
     | Ok resp => Ok (AssembleReply resp)
     | Err e => Err e
     end, (Assemble env req w).2).
Proof. simpl. munfold. by destruct (Assemble env req w) as [[resp|e] w']. Qed.

Lemma handle_Start (env : Env) (req : StartRequest.t) (w : World) :
  handle env (StartCall req) w
  = (match (Start env req w).1 with
     | Ok resp => Ok (StartReply resp)
     | Err e => Err e
     end, (Start env req w).2).
Proof. simpl. munfold. by destruct (Start env req w) as [[resp|e] w']. Qed.

Lemma getDockerTag_Err (req : AssembleRequest.t) (e : error) :
  getDockerTag req = Err e → e = errorString "invalid docker tag".
Proof. unfold getDockerTag. destruct (AssembleRequest.Tag req); congruence. Qed.

(** A failed process among the events of a plan that follow events that are
    no processes: it is the last event, and the plan ended with an error. *)
Lemma failed_after_quiet (env : Env) (pre : list Event) (plan : list (string * Cmd))
    (w : World) (l1 l2 : list Event) (ev : Event) :
  Forall (λ x, ¬ failed env x) pre →
  pre ++ planEvents env plan (fs w) = l1 ++ ev :: l2 →
  failed env ev →
  l2 = [] ∧ ∃ e, (runAll env plan w).1 = Err e.
Proof.
  intros Hpre Heq Hfailed.
  assert (∃ l1', planEvents env plan (fs w) = l1' ++ ev :: l2) as [l1' Hplan].
  { revert l1 Heq. induction Hpre as [|x pre Hx Hpre IH]; intros l1 Heq; [eauto|].
    destruct l1 as [|y l1]; simplify_eq/=; [done | eauto]. }
  split; [by eapply planEvents_failed_last|].
  destruct (runAll env plan w).1 as [[]|e] eqn:Hran; [|eauto].
  apply runAll_Ok in Hran as [_ Hnone]. rewrite Hplan in Hnone.
  apply Forall_app in Hnone as [_ Hnone]. apply Forall_cons in Hnone as [Hnone _].
  done.
Qed.

(** X6: both operations stop at the first process that fails: a failed
    process is the last thing a call did, and the call answers with an
    error. *)
Theorem failed_process_is_last (env : Env) (call : Request) (w : World) :
  ∃ evs,
    trace (handle env call w).2 = trace w ++ evs ∧
    ∀ l1 ev l2, evs = l1 ++ ev :: l2 → failed env ev →
                l2 = [] ∧ ∃ e, (handle env call w).1 = Err e.
Proof.
  destruct call as [req | req].
  - rewrite handle_Assemble. cbn [fst snd].
    destruct (Assemble_events env req w)
      as [(e & -> & _) | (name & f & _ & _ & _ & -> & Htrace)].
    { exists []. split; [by rewrite app_nil_r|]. intros l1 ev l2 Heq. by destruct l1. }
    eexists. split; [exact Htrace|]. cbn [fst snd].
    intros l1 ev l2 Heq Hfailed.
    set (w1 := emit _ (setFs f w)) in *.
    destruct (failed_after_quiet env [EvMkdirTemp (os.TempDir ++ [name])]
                (assemblePlan req (os.TempDir ++ [name])) w1 l1 l2 ev)
      as [-> [e He]]; [by constructor; [intros ?|] | exact Heq | done |].
    split; [done|]. rewrite He. eauto.
  - rewrite handle_Start. cbn [fst snd].
    destruct (validateStartRequest req) as [e|] eqn:Hv.
    { exists []. unfold Start. rewrite Hv. munfold.
      split; [by rewrite app_nil_r|]. intros l1 ev l2 Heq. by destruct l1. }
    destruct (Start_events env req w Hv)
      as [(e & _ & _ & _ & Ht) |
          (name & f & l & _ & _ & _ &
           [(_ & e & He & _ & _ & Ht) | (n & _ & Hafter & Hw2 & Hready & Hdeploy)])].
    + eexists. split; [exact Ht|]. intros [|? [|??]] ev l2 Heq Hf; by simplify_eq/=.
    + eexists. split; [exact Ht|].
      intros [|? [|? [|??]]] ev l2 Heq Hf; by simplify_eq/=.
    + rewrite Hafter. cbn [fst snd RemoveAll trace setFs].
      set (dir := filepath.Join (os.TempDir ++ [name]) (StartRequest.Service req)) in *.
      set (w2 := (copyMountedServiceFiles _ dir _).2) in *.
      eexists. split.
      { rewrite Hdeploy, Hw2. rewrite <- app_assoc. reflexivity. }
      intros l1 ev l2 Heq Hfailed. rewrite (deploy_run _ _ _ Hready).
      assert (Forall (λ x, ¬ failed env x)
                (EvGetContents (gopath.Join "docker" (StartRequest.Service req))
                   (StartRequest.Ref req)
                 :: EvMkdirTemp (os.TempDir ++ [name])
                 :: (EvHttpGet <$> downloadable l))) as Hpre.
      { repeat (constructor; [by intros ?|]). apply Forall_fmap, Forall_true.
        by intros ??. }
      destruct (os.Stat (fs w2) (filepath.Join dir "deploy.yaml")).
      * destruct (failed_after_quiet env _ (composePlan dir) w2 l1 l2 ev Hpre)
          as [-> [e He]]; [exact Heq | done |].
        split; [done|]. cbn [fst]. rewrite He. eauto.
      * destruct (failed_after_quiet env _ [] w2 l1 l2 ev Hpre)
          as [_ [e He]]; [exact Heq | done | done].
Qed.

Lemma runAll_Err_code (env : Env) (plan : list (string * Cmd)) (w : World) (e : error) :
  (runAll env plan w).1 = Err e → status.Code e = codes.Unknown.
Proof. by intros (msg & c & seen & m & _ & -> & _)%runAll_Err. Qed.

(** The code of an error of a handler: Unknown, or that of a done context
    when the listing of a Start was interrupted, which is then all that
    happened. *)
Lemma handle_error_code (env : Env) (call : Request) (w : World) (e : error) :
  (handle env call w).1 = Err e →
  status.Code e = codes.Unknown ∨
  ∃ req c msg,
    call = StartCall req ∧
    GetContents env "baely" "infra" (gopath.Join "docker" (StartRequest.Service req))
      (StartRequest.Ref req) = Interrupted c msg ∧
    status.Code e = status.Code (contextError c msg) ∧
    fs (handle env call w).2 = fs w ∧
    trace (handle env call w).2
    = trace w ++ [EvGetContents (gopath.Join "docker" (StartRequest.Service req))
                    (StartRequest.Ref req)].
Proof.
  destruct call as [req | req].
  - rewrite handle_Assemble. cbn [fst].
    destruct (Assemble_events env req w)
      as [(e' & -> & He' & _) | (name & f & _ & _ & _ & -> & _)]; cbn [fst].
    { intros [= <-]. by left. }
    destruct (runAll env _ _).1 as [[]|e1] eqn:Hran.
    + destruct (getDockerTag req) as [t|e2] eqn:Htag; [done|].
      intros [= <-]. left. by rewrite (getDockerTag_Err _ _ Htag).
    + intros [= <-]. left. by eapply runAll_Err_code.
  - rewrite handle_Start. cbn [fst snd].
    destruct (validateStartRequest req) as [e'|] eqn:Hv.
    { unfold Start. rewrite Hv. munfold. cbn [fst]. intros [= <-]. left.
      unfold validateStartRequest in Hv. repeat case_decide; by simplify_eq. }
    destruct (Start_events env req w Hv)
      as [(e' & He' & Hcode & Hfs & Ht) |
          (name & f & l & _ & _ & _ &
           [(_ & e' & He' & Hcode & _) | (n & _ & Hafter & _ & Hready & _)])].
    + rewrite He'. intros [= <-].
      destruct Hcode as [Hcode | (c & msg & Hc & Hcode)]; [by left|].
      right. exists req, c, msg. done.
    + rewrite He'. intros [= <-]. by left.
    + rewrite Hafter. cbn [fst]. rewrite (deploy_run _ _ _ Hready).
      destruct (os.Stat _ _); cbn [fst].
      * destruct (runAll env _ _).1 as [[]|e1] eqn:Hran; [done|].
        intros [= <-]. left. by eapply runAll_Err_code.
      * intros [= <-]. by left.
Qed.

(** X7: the codes of the errors of the server.  The interceptor rejects
    with Unauthenticated and leaves the world as it was.  Otherwise the call
    is the call of the handler, and its error is a plain error, which the
    caller receives as Unknown, with one exception: when the listing request
    of a Start ends with the error of a done context, that error comes back
    through two %w and the caller receives Canceled or DeadlineExceeded;
    the listing request is then all that happened. *)
Theorem serve_error_codes (env : Env) (authToken : string) (ctx : Context)
    (call : Request) (w : World) :
  let served := serve env authToken ctx call w in
  match served.1 with
  | Ok _ => served = handle env call w
  | Err e =>
      (status.Code e = codes.Unauthenticated ∧ served.2 = w) ∨
      (served = handle env call w ∧
       (status.Code e = codes.Unknown ∨
        ∃ req c msg,
          call = StartCall req ∧
          GetContents env "baely" "infra"
            (gopath.Join "docker" (StartRequest.Service req)) (StartRequest.Ref req)
            = Interrupted c msg ∧
          status.Code e = match c with
                          | context.Canceled => codes.Canceled
                          | context.DeadlineExceeded => codes.DeadlineExceeded
                          end ∧
          fs served.2 = fs w ∧
          trace served.2
          = trace w ++ [EvGetContents (gopath.Join "docker" (StartRequest.Service req))
                          (StartRequest.Ref req)]))
  end.
Proof.
  cbv zeta. unfold serve, authInterceptor.
  destruct (incoming ctx) as [md|]; [|by left].
  destruct (md_Get md "authorization") as [|first rest]; [by left|].
  case_decide; [by left|].
  destruct (handle env call w).1 as [resp|e] eqn:Hh; [done|].
  right. split; [done|].
  destruct (handle_error_code _ _ _ _ Hh)
    as [Hcode | (req & c & msg & -> & Hc & Hcode & Hfs & Ht)]; [by left|].
  right. exists req, c, msg. split_and!; [done | done | | done | done].
  rewrite Hcode. by destruct c.
Qed.

(** An interrupted listing, as the caller sees it. *)
Example interrupted_listing :
  let env := {| nextRandom := nextRandom Sample.quiet;
                Run := Run Sample.quiet;
                GetContents := λ _ _ _ _,
                  Interrupted context.DeadlineExceeded "context deadline exceeded";
                Get := Get Sample.quiet |} in
  let served := serve env "s3cret" (Sample.withAuthorization ["Bearer s3cret"])
                  (StartCall Sample.startWeb) Sample.start in
  (∃ e, served.1 = Err e ∧ status.Code e = codes.DeadlineExceeded ∧
        Error e = "failed to download service config: failed to get service directory contents: context deadline exceeded") ∧
  trace served.2 = [EvGetContents "docker/web" "main"].
Proof. cbv zeta. split; [eexists; split_and!|]; vm_compute; reflexivity. Qed.

(** ** Workspaces of Start *)

Lemma workDir_below_tmp (serviceName name : string) :
  gostrings.ContainsByte serviceName "/" = false →
  ∃ k, filepath.Join (os.TempDir ++ [name]) serviceName = "tmp" :: k.
Proof.
  intros Hsep. unfold filepath.Join. rewrite (Split_no_separator _ Hsep).
  apply (step_keeps_head "tmp" name []).
Qed.

(** X8: once the files of the service were fetched, the directory Start
    worked in, and everything below it, is gone when Start returns, with a
    response or with an error. *)
Theorem Start_removes_service_directory (env : Env) (req : StartRequest.t)
    (w : World) (dir q : path) (n : nat) :
  validateStartRequest req = None →
  (fetchServiceFiles env (StartRequest.Service req) (StartRequest.Ref req) w).1
    = Ok (dir, n) →
  dir `prefix_of` q →
  os.Stat (fs (Start env req w).2) q = None.
Proof.
  intros Hv Hfetched Hq.
  destruct (fetchServiceFiles env _ _ w) as [r w1] eqn:Hfetch.
  cbn [fst] in Hfetched. subst r.
  rewrite (Start_run _ _ _ _ _ _ Hv Hfetch). cbn [snd RemoveAll fs setFs].
  apply Stat_RemoveAll; [|done].
  destruct (fetchServiceFiles_inv _ _ _ _ _ _ Hfetch)
    as [(e & ws & [=] & _) | (l & name & n' & _ & Hsep & [= -> ->] & _)].
  destruct (workDir_below_tmp _ name Hsep) as [k Hk].
  intros Hnil. discriminate (eq_trans (eq_sym Hk) Hnil).
Qed.

Lemma Start_removes_service_directory_witness :
  os.Stat (fs (Start Sample.quiet Sample.startWeb Sample.start).2)
    ["tmp"; "coach-service-web-4242"; "web"; "deploy.yaml"] = None.
Proof.
  apply (Start_removes_service_directory Sample.quiet Sample.startWeb Sample.start
           ["tmp"; "coach-service-web-4242"; "web"] _ 2).
  - reflexivity.
  - vm_compute. reflexivity.
  - by exists ["deploy.yaml"].
Defined.

(** Where the name of a call leads from its workspace. *)
Lemma Join_workName (tempName name : string) :
  gostrings.ContainsByte name "/" = false → name ≠ "" →
  filepath.Join (os.TempDir ++ [tempName]) name
  = if decide (name = ".") then os.TempDir ++ [tempName]
    else if decide (name = "..") then os.TempDir
    else (os.TempDir ++ [tempName]) ++ [name].
Proof.
  intros Hsep Hname. unfold filepath.Join. rewrite (Split_no_separator _ Hsep).
  cbn [foldl]. unfold filepath.step.
  destruct (decide (name = ".")) as [-> | Hdot]; [done|].
  rewrite decide_False by (by intros [?|?]).
  by destruct (decide (name = "..")).
Qed.

Lemma assemblePlan_dirs (req : AssembleRequest.t) (tempDir dir : path) (c : Cmd) :
  c ∈ (assemblePlan req tempDir).*2 → CmdDir c = Some dir →
  dir = filepath.Join tempDir (AssembleRequest.Repo req).
Proof.
  unfold assemblePlan. rewrite fmap_app. intros [Hc | Hc]%elem_of_app Hdir.
  - cbn in Hc. repeat (apply elem_of_cons in Hc as [-> | Hc]; [by simplify_eq/=|]).
    by apply elem_of_nil in Hc.
  - destruct (getDockerTag req); cbn in Hc; [|by apply elem_of_nil in Hc].
    apply list_elem_of_singleton in Hc as ->. by simplify_eq/=.
Qed.

(** X9: a call creates at most one workspace, directly in the directory for
    temporary files, and under a name that did not exist when the call
    began.  Its processes that are given a working directory all run in the
    same one: in the directory named after the repository or the service
    inside the workspace, in the workspace itself for the name [.], and in
    the directory for temporary files, which all calls share, for the name
    [..]. *)
Theorem workspace_is_fresh (env : Env) (call : Request) (w : World) :
  ∃ evs,
    trace (handle env call w).2 = trace w ++ evs ∧
    length (workspaces evs) ≤ 1 ∧
    ∀ d, d ∈ workspaces evs →
         os.Stat (fs w) d = None ∧
         (∃ name, d = os.TempDir ++ [name]) ∧
         ∀ c dir, c ∈ processes evs → CmdDir c = Some dir →
                  dir = if decide (workName call = ".") then d
                        else if decide (workName call = "..") then os.TempDir
                        else d ++ [workName call].
Proof.
  destruct call as [req | req].
  - rewrite handle_Assemble. cbn [snd workName].
    destruct (Assemble_events env req w)
      as [(e & -> & _) | (name & f & Hv & Hsep & Hf & -> & Htrace)].
    { exists []. split_and!; [by rewrite app_nil_r | simpl; lia |].
      by intros d ?%elem_of_nil. }
    eexists. split_and!; [exact Htrace | by rewrite workspaces_plan |].
    intros d. rewrite workspaces_plan. intros ->%list_elem_of_singleton.
    split_and!; [by eapply Stat_Mkdir_fresh | eauto |].
    intros c dir Hc Hdir.
    change (processes (EvMkdirTemp ?t :: ?l)) with (processes l) in Hc.
    eapply elem_of_prefix in Hc; [|apply planEvents_processes].
    rewrite (assemblePlan_dirs _ _ _ _ Hc Hdir).
    apply Join_workName; [done|].
    unfold validateAssembleRequest in Hv. by case_decide.
  - rewrite handle_Start. cbn [snd workName].
    destruct (validateStartRequest req) as [e|] eqn:Hv.
    { exists []. unfold Start. rewrite Hv. munfold.
      split_and!; [by rewrite app_nil_r | simpl; lia |]. by intros d ?%elem_of_nil. }
    assert (StartRequest.Service req ≠ "") as Hname.
    { unfold validateStartRequest in Hv. by case_decide. }
    destruct (Start_events env req w Hv)
      as [(e & _ & _ & _ & Ht) |
          (name & f & l & _ & Hsep & Hf &
           [(_ & e & He & _ & _ & Ht) | (n & _ & Hafter & Hw2 & Hready & Hdeploy)])].
    + eexists. split_and!; [exact Ht | simpl; lia |]. by intros d ?%elem_of_nil.
    + eexists. split_and!; [exact Ht | simpl; lia |].
      intros d ->%list_elem_of_singleton.
      split_and!; [by eapply Stat_Mkdir_fresh | eauto |].
      by intros c dir ?%elem_of_nil.
    + rewrite Hafter. cbn [snd RemoveAll trace setFs].
      set (dir := filepath.Join (os.TempDir ++ [name]) (StartRequest.Service req)) in *.
      set (w2 := (copyMountedServiceFiles _ dir _).2) in *.
      eexists. split.
      { rewrite Hdeploy, Hw2. rewrite <- app_assoc. reflexivity. }
      set (steps := match os.Stat (fs w2) (filepath.Join dir "deploy.yaml") with
                    | None => []
                    | Some _ => planEvents env (composePlan dir) (fs w2)
                    end).
      assert (workspaces steps = [] ∧
              processes steps `prefix_of` (composePlan dir).*2) as [Hws Hps].
      { subst steps. destruct (os.Stat _ _); [|split; [done | apply prefix_nil]].
        split; [apply planEvents_quiet | apply planEvents_processes]. }
      rewrite <- !app_comm_cons.
      change (workspaces (?a :: EvMkdirTemp ?d :: ?t)) with (d :: workspaces t).
      change (processes (?a :: EvMkdirTemp ?d :: ?t)) with (processes t).
      rewrite workspaces_app, workspaces_gets, Hws.
      rewrite processes_app, processes_gets. cbn [app].
      split; [simpl; lia|].
      intros d ->%list_elem_of_singleton.
      split_and!; [by eapply Stat_Mkdir_fresh | eauto |].
      intros c dir' Hc Hdir. eapply elem_of_prefix in Hc; [|exact Hps].
      rewrite <- (Join_workName name _ Hsep Hname). fold dir.
      cbn in Hc.
      repeat (apply elem_of_cons in Hc as [-> | Hc]; [by simplify_eq/=|]).
      by apply elem_of_nil in Hc.
Qed.

(** The name [..] in both operations: the processes run in the directory
    for temporary files. *)
Example parent_name_works_in_TempDir :
  (CmdDir <$> processes (trace (Start listsAnything
                                  {| StartRequest.Service := "..";
                                     StartRequest.Ref := "main" |}
                                  {| fs := <[ ["tmp"; "deploy.yaml"] := File "local" ]>
                                             Sample.host;
                                     trace := [] |}).2))
  = [Some ["tmp"]; Some ["tmp"]].
Proof. vm_compute. reflexivity. Qed.

(** X10: a service name with a slash cannot be started: the name goes into
    the pattern of the temporary directory, so the call fails after the
    listing request, which is all that happened. *)
Theorem Start_rejects_separator (env : Env) (req : StartRequest.t) (w : World) :
  validateStartRequest req = None →
  gostrings.ContainsByte (StartRequest.Service req) "/" = true →
  ∃ e,
    (Start env req w).1 = Err e ∧
    fs (Start env req w).2 = fs w ∧
    trace (Start env req w).2
    = trace w ++ [EvGetContents (gopath.Join "docker" (StartRequest.Service req))
                    (StartRequest.Ref req)].
Proof.
  intros Hv Hsep.
  destruct (Start_events env req w Hv)
    as [(e & He & _ & Hfs & Ht) | (name & f & l & _ & Hno & _)].
  - eauto.
  - by rewrite Hsep in Hno.
Qed.

Lemma Start_rejects_separator_witness :
  ∃ e,
    (Start listsAnything {| StartRequest.Service := "web/api";
                            StartRequest.Ref := "main" |} Sample.start).1 = Err e ∧
    fs (Start listsAnything {| StartRequest.Service := "web/api";
                               StartRequest.Ref := "main" |} Sample.start).2
    = fs Sample.start ∧
    trace (Start listsAnything {| StartRequest.Service := "web/api";
                                  StartRequest.Ref := "main" |} Sample.start).2
    = trace Sample.start ++ [EvGetContents (gopath.Join "docker" "web/api") "main"].
Proof.
  apply (Start_rejects_separator listsAnything
           {| StartRequest.Service := "web/api"; StartRequest.Ref := "main" |}
           Sample.start).
  - reflexivity.
  - reflexivity.
Defined.

(** There the listing succeeds, and it is the temporary directory that
    cannot be created. *)
Example separator_reaches_MkdirTemp :
  (Start listsAnything {| StartRequest.Service := "web/api";
                          StartRequest.Ref := "main" |} Sample.start).1
  = Err (wrapError "failed to download service config: "
           (wrapError "failed to create temp directory: "
              (errorString
                 "mkdirtemp coach-service-web/api-: pattern contains path separator"))).
Proof. vm_compute. reflexivity. Qed.

(** X11: the name of the service is joined to the workspace as it is.  For
    the name [..] the directory Start works in, and removes when it returns,
    is the directory for temporary files itself: whenever the listing for
    that name succeeds, nothing is left of /tmp. *)
Theorem Start_parent_name_removes_TempDir (env : Env) (ref : string) (w : World)
    (dir q : path) (n : nat) :
  let req := {| StartRequest.Service := ".."; StartRequest.Ref := ref |} in
  validateStartRequest req = None →
  (fetchServiceFiles env ".." ref w).1 = Ok (dir, n) →
  os.TempDir `prefix_of` q →
  dir = os.TempDir ∧ os.Stat (fs (Start env req w).2) q = None.
Proof.
  intros req Hv Hfetched Hq.
  destruct (fetchServiceFiles env ".." ref w) as [r w1] eqn:Hfetch.
  cbn [fst] in Hfetched. subst r.
  destruct (fetchServiceFiles_inv _ _ _ _ _ _ Hfetch)
    as [(e & ws & [=] & _) | (l & name & n' & _ & _ & [= -> ->] & _)].
  split; [done|].
  rewrite (Start_run env req _ _ _ _ Hv Hfetch). cbn [snd RemoveAll fs setFs].
  by apply Stat_RemoveAll.
Qed.

Lemma Start_parent_name_removes_TempDir_witness :
  ["tmp"] = os.TempDir ∧
  os.Stat (fs (Start listsAnything
                 {| StartRequest.Service := ".."; StartRequest.Ref := "main" |}
                 Sample.start).2) ["tmp"] = None.
Proof.
  apply (Start_parent_name_removes_TempDir listsAnything "main" Sample.start
           ["tmp"] ["tmp"] 2).
  - reflexivity.
  - vm_compute. reflexivity.
  - done.
Defined.

(** ** Downloads *)

(** X12: a download makes one request.  It writes the file only after a
    response with status 200 whose body was read to the end, and the file
    then holds exactly the body; in every other case it reports an error and
    leaves the filesystem as it was. *)
Theorem downloadFileToPath_outcome (env : Env) (url : string) (p : path) (w : World) :
  let after := downloadFileToPath env url p w in
  trace after.2 = trace w ++ [EvHttpGet url] ∧
  match after.1 with
  | Ok _ => ∃ b, Get env url = HttpResponse 200 (Done b) ∧
                 fs after.2 = <[p := File b]> (fs w)
  | Err _ => fs after.2 = fs w
  end.
Proof.
  cbv zeta. split; [apply downloadFileToPath_trace|].
  unfold downloadFileToPath.
  destruct (Get env url) as [msg | code [b | msg | c msg]]; [done | | |].
  - case_decide as Hcode; [done|].
    subst code. unfold WriteFile. cbn [fs emit].
    destruct (os.WriteFile p b (fs w)) as [f|] eqn:Hwrite; [|done].
    exists b. split; [done|]. by apply WriteFile_inv.
  - by case_decide.
  - by case_decide.
Qed.

(** ** The copy of the mounted files *)





(** A step of the copy that ends well never replaces a directory. *)
Lemma forEach_keeps_dirs (source dest : path) (l : list (path * node)) (q : path) :
  ∀ w w',
    forEach (copyEntry source dest) l w = (Ok tt, w') →
    os.Stat (fs w) q = Some Dir → os.Stat (fs w') q = Some Dir.
Proof.
  intros w w' Hrun. pose proof (forEach_keepsDirs source dest l w) as Hkeeps.
  rewrite Hrun in Hkeeps. apply Hkeeps.
Qed.

Lemma forEach_makes_dirs (source dest : path) (l : list (path * node)) (p : path) :
  ∀ w w',
    forEach (copyEntry source dest) l w = (Ok tt, w') →
    (p, Dir) ∈ l →
    os.Stat (fs w') (dest ++ filepath.Rel source p) = Some Dir.
Proof.
  induction l as [|entry l IH]; intros w w' Hrun Hin.
  { by apply elem_of_nil in Hin. }
  apply forEach_inv in Hrun as (w1 & Hstep & Hrest).
  apply elem_of_cons in Hin as [<- | Hin]; [|by eapply IH].
  eapply forEach_keeps_dirs; [done|].
  apply copyEntry_inv in Hstep as (f' & Hmk & <-).
  by eapply Stat_MkdirAll.
Qed.

(** X14: the copy is recursive.  When the mounted directory is found under
    its absolute name as it is written and the copy ends without an error,
    every directory of the mounted tree is a directory at the same relative
    path of the destination. *)
Theorem copy_makes_directories (sourcePath : string) (source dest rel : path)
    (w : World) :
  let copied := copyMountedServiceFiles sourcePath dest w in
  gostrings.HasPrefix sourcePath "/" = true →
  copied.1 = Ok tt →
  os.Lstat (fs w) (gostrings.Split sourcePath) = inr (source, Dir) →
  os.Stat (fs w) (source ++ rel) = Some Dir →
  os.Stat (fs copied.2) (dest ++ rel) = Some Dir.
Proof.
  cbv zeta. intros _ Hok Hfound Hdir.
  rewrite (copyMountedServiceFiles_found _ _ _ _ _ Hfound) in Hok |- *.
  apply Lstat_found in Hfound as [_ Hroot].
  destruct (forEach _ (Walk (fs w) source) w) as [[[]|e] w'] eqn:Hrun; [|done].
  cbn [snd]. rewrite <- (Rel_app source rel) at 1.
  eapply forEach_makes_dirs; [done|].
  unfold Walk. rewrite Hroot.
  destruct (decide (source ++ rel = source)) as [-> | Hne]; [by left|].
  right. rewrite merge_sort_Permutation.
  apply list_elem_of_filter. split.
  - split; [by apply prefix_app_r | done].
  - apply elem_of_map_to_list. unfold os.Stat in Hdir.
    case_decide as Hnil; [|done].
    apply app_eq_nil in Hnil as [-> ->]. done.
Qed.

Lemma copy_makes_directories_witness :
  os.Stat (fs (copyMountedServiceFiles "/app/services/web" ["work"]
                 {| fs := Sample.hostWithClash; trace := [] |}).2)
    (["work"] ++ ["a"]) = Some Dir.
Proof.
  apply (copy_makes_directories "/app/services/web" ["app"; "services"; "web"]
           ["work"] ["a"]).
  - reflexivity.
  - vm_compute. reflexivity.
  - vm_compute. reflexivity.
  - vm_compute. reflexivity.
Defined.

(** The name of the mounted directory is looked up as it is written: for
    the name [..] the directory /app/services must be there, although the
    cleaned name is /app. *)
Example copy_looks_up_raw_name :
  let host := <[ ["app"; "x"] := File "local" ]> (<[ ["app"] := Dir ]> Sample.host) in
  let w := {| fs := <[ ["work"] := Dir ]> host; trace := [] |} in
  let copied := copyMountedServiceFiles "/app/services/.." ["work"] w in
  filepath.resolve "/app/services/.." = ["app"] ∧
  os.Lstat (fs w) (gostrings.Split "/app/services/..") = inl os.ENOENT ∧
  copied.1 = Ok tt ∧
  os.Stat (fs copied.2) ["work"; "x"] = None.
Proof. cbv zeta. split_and!; vm_compute; reflexivity. Qed.

(** ** The client *)

Lemma runAssemble_run (conn : coachclient.Conn) (fl : coachclient.Flags) (w : World) :
  coachclient.runAssemble conn fl w
  = match coachclient.createClient conn fl, coachclient.tagEnum fl with
    | Err e, _ => (Err e, w)
    | Ok _, Err e => (Err e, w)
    | Ok _, Ok t =>
        let sent := coachclient.invoke conn (coachclient.outgoing fl)
                      (AssembleCall (coachclient.assembleRequest fl t)) w in
        (match sent.1 with
         | Ok _ => Ok tt
         | Err e => Err (wrapError "assemble failed: " e)
         end, sent.2)
    end.
Proof.
  unfold coachclient.runAssemble. munfold.
  destruct (coachclient.createClient conn fl) as [[]|e]; [|done].
  destruct (coachclient.tagEnum fl) as [t|e]; [|done].
  by destruct (coachclient.invoke conn _ _ w) as [[resp|e] w'].
Qed.

(** X15: runAssemble sends nothing when the token is empty or when the tag
    word is none of latest, sha and unspecified (in lower case): it returns
    an error and the world is as before, whatever it is connected to. *)
Theorem runAssemble_sends_nothing (conn : coachclient.Conn) (fl : coachclient.Flags)
    (w : World) :
  coachclient.authToken fl = "" ∨
  (coachclient.tag fl ≠ "latest" ∧ coachclient.tag fl ≠ "sha" ∧
   coachclient.tag fl ≠ "unspecified") →
  ∃ e, coachclient.runAssemble conn fl w = (Err e, w).
Proof.
  intros Hbad. rewrite runAssemble_run.
  destruct (coachclient.createClient conn fl) as [[]|e] eqn:Hclient; [|eauto].
  destruct Hbad as [Htoken | (H1 & H2 & H3)].
  - unfold coachclient.createClient in Hclient. by rewrite decide_True in Hclient.
  - unfold coachclient.tagEnum. rewrite !decide_False by done. eauto.
Qed.

Lemma runAssemble_sends_nothing_witness :
  ∃ e, coachclient.runAssemble (connected Sample.quiet "s3cret")
         (blogFlags "s3cret" "SHA") Sample.start = (Err e, Sample.start).
Proof.
  apply (runAssemble_sends_nothing (connected Sample.quiet "s3cret")
           (blogFlags "s3cret" "SHA") Sample.start).
  right. split_and!; discriminate.
Defined.

(** The metadata the client sends carries its token behind "Bearer ", and
    the interceptor gets the token back from it. *)
Lemma sent_token (fl : coachclient.Flags) :
  md_Get (coachclient.outgoing fl) "authorization"
    = ["Bearer " +:+ coachclient.authToken fl] ∧
  gostrings.TrimPrefix ("Bearer " +:+ coachclient.authToken fl) "Bearer "
    = coachclient.authToken fl.
Proof.
  split; [|apply TrimPrefix_app].
  unfold md_Get, coachclient.outgoing. by rewrite lookup_singleton_eq.
Qed.

(** A call through the connection either was rejected and did nothing, or
    is the call of the handler. *)
Lemma invoke_connected_cases (env : Env) (serverToken : string)
    (fl : coachclient.Flags) (call : Request) (w : World) :
  let sent := coachclient.invoke (connected env serverToken)
                (coachclient.outgoing fl) call w in
  (∃ e, sent = (Err e, w)) ∨
  (sent.2 = (handle env call w).2 ∧
   ∀ resp, sent.1 = Ok resp → (handle env call w).1 = Ok resp).
Proof.
  cbv zeta. cbn [coachclient.invoke connected].
  destruct (metadata.Validate _); [left; eauto|].
  unfold serve, authInterceptor.
  cbn [incoming]. destruct (sent_token fl) as [-> ->].
  case_decide; [left; eauto|]. right.
  destruct (handle env call w) as [[resp|e] w']; cbn [fst snd]; [|done].
  split; [done|]. by intros resp' [= ->].
Qed.

(** X16: the client and the interceptor fit together.  When the
    authorization value the client appends to its call, "Bearer " and its
    token, is the one the interceptor finds, the call is handed to the
    handler exactly when the token is the secret of the server, also for a
    token that itself starts with "Bearer "; with another token the call is
    rejected as Unauthenticated with "invalid token" and nothing happens. *)
Theorem client_token_decides (env : Env) (serverToken : string)
    (fl : coachclient.Flags) (ctx : Context) (md : gmap string (list string))
    (call : Request) (w : World) :
  incoming ctx = Some md →
  md_Get md "authorization" = md_Get (coachclient.outgoing fl) "authorization" →
  serve env serverToken ctx call w
  = if decide (coachclient.authToken fl = serverToken) then handle env call w
    else (Err (statusError codes.Unauthenticated "invalid token"), w).
Proof.
  intros Hmd Hauth. unfold serve, authInterceptor. rewrite Hmd, Hauth.
  destruct (sent_token fl) as [-> ->].
  destruct (decide (coachclient.authToken fl = serverToken)) as [Heq | Hne].
  - by rewrite decide_False by (by intros ?).
  - by rewrite decide_True.
Qed.

Lemma client_token_decides_witness :
  serve Sample.quiet "Bearer s3cret"
    {| incoming := Some (<[ "user-agent" := ["grpc-go"] ]>
                           (coachclient.outgoing (blogFlags "Bearer s3cret" "sha"))) |}
    (StartCall Sample.startWeb) Sample.start
  = if decide (coachclient.authToken (blogFlags "Bearer s3cret" "sha") = "Bearer s3cret")
    then handle Sample.quiet (StartCall Sample.startWeb) Sample.start
    else (Err (statusError codes.Unauthenticated "invalid token"), Sample.start).
Proof.
  apply (client_token_decides Sample.quiet "Bearer s3cret"
           (blogFlags "Bearer s3cret" "sha") _
           (<[ "user-agent" := ["grpc-go"] ]>
              (coachclient.outgoing (blogFlags "Bearer s3cret" "sha")))).
  - reflexivity.
  - vm_compute. reflexivity.
Defined.

(** The client refuses a token with a character that is not printable: the
    call ends with the code Internal and the server is not reached. *)
Example unprintable_token_refused :
  let tab := String (ascii_of_nat 9) EmptyString in
  let sent := coachclient.runStart (connected Sample.quiet ("s3" +:+ tab))
                (blogFlags ("s3" +:+ tab) "sha") Sample.start in
  (∃ e, sent.1 = Err e ∧ status.Code e = codes.Internal) ∧
  trace sent.2 = [].
Proof. cbv zeta. split; [eexists; split|]; vm_compute; reflexivity. Qed.

Lemma Assemble_needs_tag (env : Env) (req : AssembleRequest.t) (w : World) (e0 : error) :
  getDockerTag req = Err e0 → ∃ e, (Assemble env req w).1 = Err e.
Proof.
  intros Htag.
  destruct (Assemble_events env req w)
    as [(e & -> & _) | (name & f & _ & _ & _ & -> & _)]; [eauto|].
  cbn [fst]. rewrite Htag. destruct (runAll env _ _).1; eauto.
Qed.

(** X17: the tag word unspecified is accepted by the client but can never
    be assembled: against the coach server runAssemble with that word always
    returns an error. *)
Theorem unspecified_never_assembles (env : Env) (serverToken : string)
    (fl : coachclient.Flags) (w : World) :
  coachclient.tag fl = "unspecified" →
  ∃ e, (coachclient.runAssemble (connected env serverToken) fl w).1 = Err e.
Proof.
  intros Htag. rewrite runAssemble_run.
  destruct (coachclient.createClient _ fl) as [[]|e]; [|eauto].
  unfold coachclient.tagEnum. rewrite Htag.
  rewrite decide_False by done. rewrite decide_False by done.
  rewrite decide_True by done. cbv zeta.
  set (req := coachclient.assembleRequest fl AssembleRequest_TAG_UNSPECIFIED).
  destruct (invoke_connected_cases env serverToken fl (AssembleCall req) w)
    as [[e ->] | [_ Hok]]; [eauto|].
  destruct (coachclient.invoke _ _ _ w).1 as [resp|e] eqn:Hsent; [|eauto].
  specialize (Hok resp eq_refl). rewrite handle_Assemble in Hok. cbn [fst] in Hok.
  destruct (Assemble_needs_tag env req w (errorString "invalid docker tag") eq_refl)
    as [e He].
  by rewrite He in Hok.
Qed.

Lemma unspecified_never_assembles_witness :
  ∃ e, (coachclient.runAssemble (connected Sample.quiet "s3cret")
          (blogFlags "s3cret" "unspecified") Sample.start).1 = Err e.
Proof.
  apply (unspecified_never_assembles Sample.quiet "s3cret"
           (blogFlags "s3cret" "unspecified") Sample.start).
  reflexivity.
Defined.

Lemma optional_default (s defaultValue : string) :
  getStringOrDefault (coachclient.optional s) defaultValue
  = if decide (s = "") then defaultValue else s.
Proof.
  unfold coachclient.optional. destruct (decide (s = "")) as [-> | Hne].
  - by rewrite decide_False by (by intros ?).
  - by rewrite decide_True.
Qed.

(** X18: from the flags to the build.  Against the coach server the only
    docker process runAssemble causes is the build that pushes
    registry.baileys.dev/<image>:latest for the tag word latest and
    registry.baileys.dev/<image>:<ref> otherwise, with the Dockerfile and
    the context of the flags, or Dockerfile and [.] where a flag is
    empty. *)
Theorem client_build_command (env : Env) (serverToken : string)
    (fl : coachclient.Flags) (w : World) :
  ∃ evs,
    trace (coachclient.runAssemble (connected env serverToken) fl w).2
      = trace w ++ evs ∧
    ∀ c, c ∈ processes evs → Path c = "docker" →
         Args c =
         ["build";
          "--tag"; "registry.baileys.dev/" +:+ coachclient.image fl +:+ ":" +:+
                   (if decide (coachclient.tag fl = "latest") then "latest"
                    else coachclient.ref fl);
          "--push"; "--platform"; "linux/amd64";
          "--file";
          if decide (coachclient.dockerfileLocation fl = "") then "Dockerfile"
          else coachclient.dockerfileLocation fl;
          if decide (coachclient.contextLocation fl = "") then "."
          else coachclient.contextLocation fl].
Proof.
  assert (∃ evs : list Event, trace w = trace w ++ evs ∧
            ∀ c, c ∈ processes evs → Path c = "docker" → False) as Hnothing.
  { exists []. split; [by rewrite app_nil_r|]. by intros c ?%elem_of_nil. }
  rewrite runAssemble_run.
  destruct (coachclient.createClient _ fl) as [[]|e].
  2:{ destruct Hnothing as (evs & ? & Hno). exists evs. split; [done|].
      intros c Hc Hd. by destruct (Hno c Hc Hd). }
  destruct (coachclient.tagEnum fl) as [t|e] eqn:Ht.
  2:{ destruct Hnothing as (evs & ? & Hno). exists evs. split; [done|].
      intros c Hc Hd. by destruct (Hno c Hc Hd). }
  cbv zeta. cbn [snd].
  set (req := coachclient.assembleRequest fl t).
  destruct (invoke_connected_cases env serverToken fl (AssembleCall req) w)
    as [[e ->] | [-> _]].
  { destruct Hnothing as (evs & ? & Hno). exists evs. split; [done|].
    intros c Hc Hd. by destruct (Hno c Hc Hd). }
  rewrite handle_Assemble. cbn [snd].
  destruct (Assemble_events env req w)
    as [(e & -> & _) | (name & f & _ & _ & _ & -> & Htrace)].
  { destruct Hnothing as (evs & ? & Hno). exists evs. split; [done|].
    intros c Hc Hd. by destruct (Hno c Hc Hd). }
  eexists. split; [exact Htrace|].
  intros c Hc Hdocker.
  change (processes (EvMkdirTemp ?d :: ?l)) with (processes l) in Hc.
  eapply elem_of_prefix in Hc; [|apply planEvents_processes].
  unfold assemblePlan in Hc. rewrite fmap_app in Hc.
  apply elem_of_app in Hc as [Hc | Hc].
  { cbn in Hc. by repeat (apply elem_of_cons in Hc as [-> | Hc]; [discriminate Hdocker|]);
      apply elem_of_nil in Hc. }
  destruct (getDockerTag req) as [dockerTag|e] eqn:Htag;
    [|by apply elem_of_nil in Hc].
  apply list_elem_of_singleton in Hc as ->.
  unfold build. cbn [Args]. subst req. cbn [coachclient.assembleRequest
    AssembleRequest.Image AssembleRequest.DockerfileLocation
    AssembleRequest.ContextLocation].
  rewrite !optional_default.
  assert (dockerTag = if decide (coachclient.tag fl = "latest") then "latest"
                      else coachclient.ref fl) as ->; [|done].
  unfold coachclient.tagEnum in Ht. unfold getDockerTag in Htag.
  cbn [coachclient.assembleRequest AssembleRequest.Tag AssembleRequest.Ref] in Htag.
  repeat case_decide; by simplify_eq.
Qed.

Example client_build_sample :
  Args <$> processes (trace (coachclient.runAssemble (connected Sample.quiet "s3cret")
                               (blogFlags "s3cret" "sha") Sample.start).2)
  = [["clone"; "https://github.com/baely/blog"; "/tmp/coach-assemble-blog-4242/blog"];
     ["checkout"; "main"];
     ["build"; "--tag"; "registry.baileys.dev/blog:main"; "--push";
      "--platform"; "linux/amd64"; "--file"; "Dockerfile"; "."]].
Proof. vm_compute. reflexivity. Qed.
